(** * China CloudFront SSL Plugin: the CDK stack and its deployment model

    A shallow embedding of [cdk/lib/china-cloudfront-ssl-plugin-stack.ts].
    The constructor of [ChinaCloudFrontSslPluginStack] is a sequence of
    construct creations and mutations of the construct tree; it is embedded
    as a computation in a state monad over that tree.  CloudFormation
    tokens (parameter values, pseudo parameters, resource attributes) stay
    symbolic until a deployment substitutes them. *)

From Stdlib Require Import String Ascii List Bool Arith NArith ZArith QArith Lia Lqa.
From ExtLib Require Import Structures.Monad Structures.MonadState.
From ExtLib Require Import Data.Monads.StateMonad.
Import ListNotations.
Import MonadNotation.
Local Open Scope monad_scope.
Local Close Scope Q_scope.
Local Open Scope string_scope.

Local Set Warnings "-register-all".

(* ===================================================================== *)
(** ** Tokens: values known only at deployment time *)
(* ===================================================================== *)

(** A string-valued or number-valued expression of the template.  [Ref]
    stands for [param.valueAsString] / [param.valueAsNumber], for the
    pseudo parameters [Aws.STACK_NAME], [Aws.REGION], ... and for the
    physical name of a resource; [GetAtt] for a resource attribute such as
    an ARN; [Cat] for JavaScript [+] and template literals. *)
Inductive Token : Type :=
| Lit (s : string)
| Num (q : Q)
| Ref (logicalId : string)
| GetAtt (logicalId attr : string)
| Cat (a b : Token).

Declare Scope token_scope.
Delimit Scope token_scope with tok.
Bind Scope token_scope with Token.
Infix "+#" := Cat (at level 50, left associativity) : token_scope.

Module Aws.
Definition STACK_NAME : Token := Ref "AWS::StackName".
Definition STACK_ID : Token := Ref "AWS::StackId".
Definition REGION : Token := Ref "AWS::Region".
Definition ACCOUNT_ID : Token := Ref "AWS::AccountId".
End Aws.

(** Does the expression mention logical id [x]? *)
Fixpoint mentions (x : string) (t : Token) : bool :=
  match t with
  | Lit _ | Num _ => false
  | Ref y => String.eqb x y
  | GetAtt y _ => String.eqb x y
  | Cat a b => mentions x a || mentions x b
  end.

(** Substitution of the references an environment knows. *)
Fixpoint subst (rho : string -> option Token) (t : Token) : Token :=
  match t with
  | Lit _ | Num _ | GetAtt _ _ => t
  | Ref x => match rho x with Some v => v | None => t end
  | Cat a b => Cat (subst rho a) (subst rho b)
  end.

(** The text of an expression without references and numbers left. *)
Fixpoint as_string (t : Token) : option string :=
  match t with
  | Lit s => Some s
  | Cat a b =>
      match as_string a, as_string b with
      | Some x, Some y => Some (x ++ y)
      | _, _ => None
      end
  | _ => None
  end.

(* ===================================================================== *)
(** ** Durations and schedules *)
(* ===================================================================== *)

Inductive TimeUnit := Seconds | Minutes | Hours | Days.

Definition unit_seconds (u : TimeUnit) : Q :=
  match u with
  | Seconds => 1
  | Minutes => 60
  | Hours => 3600
  | Days => 86400
  end%Q.

(** [Duration.seconds(n)], [Duration.days(n)]: the amount is a number or a
    token that resolves to one. *)
Record Duration := mkDuration { amount : Token; timeUnit : TimeUnit }.

Module DurationOps.
Definition seconds (n : Q) : Duration := mkDuration (Num n) Seconds.
Definition days (n : Token) : Duration := mkDuration n Days.

Definition toSeconds (d : Duration) : option Q :=
  match amount d with
  | Num n => Some (n * unit_seconds (timeUnit d))%Q
  | _ => None
  end.

Definition subst_duration (rho : string -> option Token) (d : Duration) :=
  mkDuration (subst rho (amount d)) (timeUnit d).
End DurationOps.

(** [Schedule.rate(duration)] *)
Inductive Schedule := Rate (d : Duration).

(* ===================================================================== *)
(** ** Patterns of [allowedPattern] *)
(* ===================================================================== *)

(** The pattern of the stack is in the fragment of regular-expression
    syntax without groups and alternation: a sequence of atoms, each with
    a repetition count. *)
Module Regex.

Inductive class_item :=
| CChar (c : ascii)
| CRange (lo hi : ascii)
| CWord.                      (* \w *)

Inductive atom :=
| ABound                      (* \b *)
| ASet (items : list class_item)
| AAny.                       (* . *)

Record piece := mkPiece { p_atom : atom; p_min : nat; p_max : option nat }.

Definition regex := list piece.

Definition in_range (lo hi c : ascii) : bool :=
  (N_of_ascii lo <=? N_of_ascii c)%N && (N_of_ascii c <=? N_of_ascii hi)%N.

(** [\w] is [[a-zA-Z_0-9]]. *)
Definition is_word (c : ascii) : bool :=
  in_range "a" "z" c || in_range "A" "Z" c || in_range "0" "9" c
  || Ascii.eqb c "_".

Definition item_matches (i : class_item) (c : ascii) : bool :=
  match i with
  | CChar x => Ascii.eqb x c
  | CRange lo hi => in_range lo hi c
  | CWord => is_word c
  end.

Definition atom_accepts (a : atom) (c : ascii) : bool :=
  match a with
  | ABound => false
  | ASet items => existsb (fun i => item_matches i c) items
  | AAny => true
  end.

Definition word_opt (c : option ascii) : bool :=
  match c with Some x => is_word x | None => false end.

(** [\b]: exactly one side of the position is a word character; the two
    ends of the input count as non-word. *)
Definition at_boundary (prev : option ascii) (rest : list ascii) : bool :=
  xorb (word_opt prev) (word_opt (hd_error rest)).

Definition may_take (max : option nat) : bool :=
  match max with Some 0 => false | _ => true end.

(** Consume between [min] and [max] characters accepted by [a], then
    continue with [k]; every split is tried. *)
Fixpoint rep (a : atom) (k : option ascii -> list ascii -> bool)
         (min : nat) (max : option nat)
         (prev : option ascii) (s : list ascii) : bool :=
  ((min =? 0)%nat && k prev s)
  || (may_take max
      && match s with
         | [] => false
         | c :: s' =>
             atom_accepts a c
             && rep a k (pred min) (option_map pred max) (Some c) s'
         end).

Fixpoint match_from (r : regex) (prev : option ascii) (s : list ascii)
  : bool :=
  match r with
  | [] => match s with [] => true | _ => false end
  | p :: r' =>
      match p_atom p with
      | ABound => at_boundary prev s && match_from r' prev s
      | a => rep a (match_from r') (p_min p) (p_max p) prev s
      end
  end.

(** The pattern has to match the entire value. *)
Definition full_match (r : regex) (s : string) : bool :=
  match_from r None (list_ascii_of_string s).

(** *** Reading the pattern text *)

Definition is_digit (c : ascii) : bool := in_range "0" "9" c.

Definition digit_val (c : ascii) : nat :=
  N.to_nat (N_of_ascii c) - 48.

Fixpoint read_nat (acc : nat) (s : list ascii) : nat * list ascii :=
  match s with
  | c :: s' => if is_digit c then read_nat (10 * acc + digit_val c) s'
               else (acc, s)
  | [] => (acc, s)
  end.

Definition starts_digit (s : list ascii) : bool :=
  match s with c :: _ => is_digit c | [] => false end.

(** The items of a bracket expression, up to the closing bracket. *)
Fixpoint read_class (acc : list class_item) (s : list ascii)
  : option (list class_item * list ascii) :=
  match s with
  | [] => None
  | "]"%char :: s' => Some (rev acc, s')
  | "\"%char :: "w"%char :: s' => read_class (CWord :: acc) s'
  | "\"%char :: c :: s' => read_class (CChar c :: acc) s'
  | "\"%char :: [] => None
  | lo :: "-"%char :: "]"%char :: s' =>
      Some (rev (CChar "-" :: CChar lo :: acc), s')
  | lo :: "-"%char :: hi :: s' => read_class (CRange lo hi :: acc) s'
  | c :: s' => read_class (CChar c :: acc) s'
  end.

(** The repetition count that follows an atom, if any. *)
Definition read_quant (s : list ascii)
  : option (nat * option nat * list ascii) :=
  match s with
  | "+"%char :: s' => Some (1, None, s')
  | "*"%char :: s' => Some (0, None, s')
  | "?"%char :: s' => Some (0, Some 1, s')
  | "{"%char :: s' =>
      if starts_digit s' then
        let '(m, s1) := read_nat 0 s' in
        match s1 with
        | "}"%char :: s2 => Some (m, Some m, s2)
        | ","%char :: "}"%char :: s2 => Some (m, None, s2)
        | ","%char :: s2 =>
            if starts_digit s2 then
              let '(n, s3) := read_nat 0 s2 in
              match s3 with
              | "}"%char :: s4 =>
                  if (m <=? n)%nat then Some (m, Some n, s4) else None
              | _ => None
              end
            else None
        | _ => None
        end
      else None
  | _ => Some (1, Some 1, s)
  end.

Definition read_atom (s : list ascii) : option (atom * list ascii) :=
  match s with
  | [] => None
  | "\"%char :: "b"%char :: s' => Some (ABound, s')
  | "\"%char :: "w"%char :: s' => Some (ASet [CWord], s')
  | "\"%char :: c :: s' =>
      if is_word c then None else Some (ASet [CChar c], s')
  | "\"%char :: [] => None
  | "["%char :: "^"%char :: _ => None
  | "["%char :: s' =>
      match read_class [] s' with
      | Some (items, s'') => Some (ASet items, s'')
      | None => None
      end
  | "."%char :: s' => Some (AAny, s')
  | c :: s' =>
      if existsb (Ascii.eqb c) ["("; ")"; "|"; "^"; "$"; "+"; "*"; "?";
                                "{"; "}"; "]"]%char
      then None else Some (ASet [CChar c], s')
  end.

(** [fuel] bounds the number of pieces; the length of the text is
    enough, since every piece takes at least one character. *)
Fixpoint read_pieces (fuel : nat) (s : list ascii) : option regex :=
  match s with
  | [] => Some []
  | _ =>
      match fuel with
      | 0 => None
      | S fuel' =>
          match read_atom s with
          | None => None
          | Some (a, s1) =>
              match read_quant s1 with
              | None => None
              | Some (m, mx, s2) =>
                  match read_pieces fuel' s2 with
                  | Some r => Some (mkPiece a m mx :: r)
                  | None => None
                  end
              end
          end
      end
  end.

Definition parse (pattern : string) : option regex :=
  let s := list_ascii_of_string pattern in
  read_pieces (List.length s) s.

End Regex.

(* ===================================================================== *)
(** ** CloudFormation parameters *)
(* ===================================================================== *)

Inductive ParamType := TString | TNumber.

(** A parameter value as CloudFormation reads it for the declared type:
    a text, or a number (an integer or a decimal fraction). *)
Inductive ParamValue :=
| PStr (s : string)
| PNum (q : Q).

Record CfnParameterProps := mkParam {
  type : ParamType;
  minLength : option nat;
  maxLength : option nat;
  allowedPattern : option string;
  minValue : option Q;
  maxValue : option Q;
  default : option ParamValue;
  description : string
}.

Definition opt_holds {A} (o : option A) (p : A -> bool) : bool :=
  match o with Some x => p x | None => true end.

Definition pattern_accepts (pattern : string) (s : string) : bool :=
  match Regex.parse pattern with
  | Some r => Regex.full_match r s
  | None => false
  end.

(** The constraints CloudFormation enforces on a parameter value when a
    stack is created or updated. *)
Definition param_accepts (p : CfnParameterProps) (v : ParamValue) : bool :=
  match type p, v with
  | TString, PStr s =>
      opt_holds (minLength p) (fun n => (n <=? String.length s)%nat)
      && opt_holds (maxLength p) (fun n => (String.length s <=? n)%nat)
      && opt_holds (allowedPattern p) (fun pat => pattern_accepts pat s)
  | TNumber, PNum q =>
      opt_holds (minValue p) (fun lo => Qle_bool lo q)
      && opt_holds (maxValue p) (fun hi => Qle_bool q hi)
  | _, _ => false
  end.

(* ===================================================================== *)
(** ** Constructs *)
(* ===================================================================== *)

Fixpoint lookup {A} (k : string) (l : list (string * A)) : option A :=
  match l with
  | [] => None
  | (k', v) :: l' => if String.eqb k k' then Some v else lookup k l'
  end.

(** Replace the entry under [k], or add it at the end. *)
Fixpoint assign {A} (k : string) (v : A) (l : list (string * A))
  : list (string * A) :=
  match l with
  | [] => [(k, v)]
  | (k', v') :: l' =>
      if String.eqb k k' then (k, v) :: l' else (k', v') :: assign k v l'
  end.

Module iam.
Inductive Effect := ALLOW | DENY.

Record PolicyStatement := mkStatement {
  resources : list Token;
  actions : list string;
  effect : Effect
}.

(** [new iam.ServicePrincipal(service)] *)
Inductive Principal := ServicePrincipal (service : string).
End iam.

Module sns.
Inductive Subscription := EmailSubscription (address : Token).

Record Topic := mkTopic {
  displayName : Token;
  subscriptions : list Subscription
}.
End sns.

Module s3.
Inductive RemovalPolicy := DESTROY | RETAIN.

Record Bucket := mkBucket { removalPolicy : RemovalPolicy }.
End s3.

Module lambda.
Inductive Runtime := PYTHON_3_9 | PYTHON_3_10 | NODEJS_18_X.

Record Bundling := mkBundling {
  image : Runtime;
  command : list string;
  user : option string
}.

(** [lambda.Code.fromAsset(path, {bundling})] *)
Record Code := fromAsset { path : string; bundling : option Bundling }.

Record FunctionProps := mkProps {
  code : Code;
  runtime : Runtime;
  handler : string;
  description : string;
  environment : list (string * Token);
  memorySize : option nat;
  timeout : Duration
}.

Record Permission := mkPermission {
  action : string;
  principal : iam.Principal;
  sourceArn : Token
}.

(** The function construct: its properties and what the stack adds to it
    after creation (environment variables, statements of the role's
    policy, resource-based permissions). *)
Record LambdaFunction := mkFunction {
  props : FunctionProps;
  env : list (string * Token);
  rolePolicy : list iam.PolicyStatement;
  permissions : list (string * Permission)
}.

Definition create (p : FunctionProps) : LambdaFunction :=
  mkFunction p (environment p) [] [].

Definition addEnvironment (k : string) (v : Token) (f : LambdaFunction) :=
  mkFunction (props f) (assign k v (env f)) (rolePolicy f) (permissions f).

Definition addToRolePolicy (st : iam.PolicyStatement) (f : LambdaFunction) :=
  mkFunction (props f) (env f) (rolePolicy f ++ [st]) (permissions f).

Definition addPermission (id : string) (p : Permission) (f : LambdaFunction) :=
  mkFunction (props f) (env f) (rolePolicy f) (permissions f ++ [(id, p)]).
End lambda.

Module events.
(** An event pattern: at a leaf the values allowed there, at a node a
    pattern for each named field. *)
Inductive Pattern :=
| PValues (vs : list Token)
| PObject (fields : list (string * Pattern)).

Record EventPattern := mkEventPattern {
  source : option (list string);
  detailType : option (list string);
  detail : option Pattern
}.

(** [new targets.LambdaFunction(handler, {event})]: without [event] the
    matched event itself is the input of the function. *)
Record LambdaTarget := mkTarget {
  handler : string;
  event : option Token
}.

Record RuleProps := mkRuleProps {
  description : Token;
  enabled : bool;
  eventPattern : option EventPattern;
  schedule : option Schedule
}.

Record Rule := mkRule {
  props : RuleProps;
  targets : list LambdaTarget
}.

Definition create (p : RuleProps) : Rule := mkRule p [].

Definition addTarget (t : LambdaTarget) (r : Rule) : Rule :=
  mkRule (props r) (targets r ++ [t]).
End events.

Module apigateway.
Inductive EndpointType := REGIONAL | EDGE | PRIVATE.
Inductive MethodLoggingLevel := OFF | ERROR | INFO.

Record CorsOptions := mkCors {
  allowHeaders : list string;
  allowMethods : list string;
  allowCredentials : bool;
  allowOrigins : list string
}.

Module Cors.
Definition ALL_ORIGINS : list string := ["*"].
End Cors.

Record RestApiProps := mkApiProps {
  restApiName : Token;
  description : Token;
  deploy : bool;
  cloudWatchRole : bool;
  defaultCorsPreflightOptions : option CorsOptions;
  endpointTypes : list EndpointType
}.

Inductive Integration :=
| LambdaIntegration (handler : string) (proxy : bool)
| MockIntegration.            (* the answer to a CORS preflight *)

Record Method := mkMethod {
  resource : list string;     (* path of the resource below the root *)
  httpMethod : string;
  integration : Integration
}.

Record RestApi := mkApi {
  props : RestApiProps;
  resources : list (list string);
  methods : list Method
}.

(** A resource of an API with default CORS preflight options answers
    [OPTIONS]. *)
Definition preflight (p : RestApiProps) (path : list string) : list Method :=
  match defaultCorsPreflightOptions p with
  | Some _ => [mkMethod path "OPTIONS" MockIntegration]
  | None => []
  end.

(** The API is created with its root resource. *)
Definition create (p : RestApiProps) : RestApi :=
  mkApi p [[]] (preflight p []).

Definition addResource (path : list string) (a : RestApi) : RestApi :=
  mkApi (props a) (resources a ++ [path]) (methods a ++ preflight (props a) path).

Definition addMethod (path : list string) (m : string) (i : Integration)
           (a : RestApi) : RestApi :=
  mkApi (props a) (resources a) (methods a ++ [mkMethod path m i]).

Record Deployment := mkDeployment { api : string }.

Record Stage := mkStage {
  stageName : string;
  deployment : string;
  dataTraceEnabled : bool;
  loggingLevel : MethodLoggingLevel
}.
End apigateway.

Record CfnOutput := mkOutput { value : Token; output_description : string }.

Inductive Construct :=
| CParameter (p : CfnParameterProps)
| CTopic (t : sns.Topic)
| CBucket (b : s3.Bucket)
| CFunction (f : lambda.LambdaFunction)
| CRule (r : events.Rule)
| CRestApi (a : apigateway.RestApi)
| CDeployment (d : apigateway.Deployment)
| CStage (s : apigateway.Stage)
| COutput (o : CfnOutput).

Record Interface := mkInterface {
  ParameterGroups : list (list string);
  ParameterLabels : list (string * string)
}.

(** The stack under construction: template options and the constructs
    created so far, by construct id, in creation order. *)
Record Stack := mkStack {
  templateDescription : string;
  templateMetadata : option Interface;
  children : list (string * Construct)
}.

Definition empty_stack : Stack := mkStack "" None [].

(* ===================================================================== *)
(** ** Building the construct tree *)
(* ===================================================================== *)

Definition Build := state Stack.

Definition addChild (id : string) (c : Construct) : Build string :=
  modify (fun s => mkStack (templateDescription s) (templateMetadata s)
                           (children s ++ [(id, c)])) ;;
  ret id.

Definition update (id : string) (f : Construct -> Construct) : Build unit :=
  modify (fun s =>
    mkStack (templateDescription s) (templateMetadata s)
            (map (fun kc => if String.eqb id (fst kc)
                            then (fst kc, f (snd kc)) else kc)
                 (children s))) ;;
  ret tt.

Definition onFunction (g : lambda.LambdaFunction -> lambda.LambdaFunction)
  (c : Construct) : Construct :=
  match c with CFunction f => CFunction (g f) | _ => c end.

Definition onRule (g : events.Rule -> events.Rule) (c : Construct) :=
  match c with CRule r => CRule (g r) | _ => c end.

Definition onTopic (g : sns.Topic -> sns.Topic) (c : Construct) :=
  match c with CTopic t => CTopic (g t) | _ => c end.

Definition onRestApi (g : apigateway.RestApi -> apigateway.RestApi)
  (c : Construct) :=
  match c with CRestApi a => CRestApi (g a) | _ => c end.

(** [this.templateOptions.description = ...] *)
Definition set_description (d : string) : Build unit :=
  modify (fun s => mkStack d (templateMetadata s) (children s)) ;; ret tt.

(** [this.templateOptions.metadata = ...] *)
Definition set_metadata (i : Interface) : Build unit :=
  modify (fun s => mkStack (templateDescription s) (Some i) (children s)) ;;
  ret tt.

(** Handles of constructs are their ids; the tokens a handle gives. *)
Definition valueAsString (param : string) : Token := Ref param.
Definition valueAsNumber (param : string) : Token := Ref param.
Definition logicalId (param : string) : string := param.
Definition bucketName (bucket : string) : Token := Ref bucket.
Definition bucketArn (bucket : string) : Token := GetAtt bucket "Arn".
Definition topicArn (topic : string) : Token := Ref topic.
Definition ruleArn (rule : string) : Token := GetAtt rule "Arn".
Definition restApiId (api : string) : Token := Ref api.

Definition new_CfnParameter id (p : CfnParameterProps) : Build string :=
  addChild id (CParameter p).

Definition new_Topic id (displayName : Token) : Build string :=
  addChild id (CTopic (sns.mkTopic displayName [])).

Definition addSubscription (topic : string) (sub : sns.Subscription)
  : Build unit :=
  update topic (onTopic (fun t =>
    sns.mkTopic (sns.displayName t) (sns.subscriptions t ++ [sub]))).

Definition new_Bucket id (b : s3.Bucket) : Build string :=
  addChild id (CBucket b).

Definition new_Function id (p : lambda.FunctionProps) : Build string :=
  addChild id (CFunction (lambda.create p)).

Definition addToRolePolicy (fn : string) (st : iam.PolicyStatement) :=
  update fn (onFunction (lambda.addToRolePolicy st)).

Definition addPermission (fn id : string) (p : lambda.Permission) :=
  update fn (onFunction (lambda.addPermission id p)).

Definition addEnvironment (fn key : string) (v : Token) :=
  update fn (onFunction (lambda.addEnvironment key v)).

Definition new_Rule id (p : events.RuleProps) : Build string :=
  addChild id (CRule (events.create p)).

Definition addTarget (rule : string) (t : events.LambdaTarget) :=
  update rule (onRule (events.addTarget t)).

Definition new_RestApi id (p : apigateway.RestApiProps) : Build string :=
  addChild id (CRestApi (apigateway.create p)).

(** A resource handle: the API and the path below its root. *)
Definition ResourceRef := (string * list string)%type.

Definition root (api : string) : ResourceRef := (api, []).

Definition addResource (parent : ResourceRef) (part : string)
  : Build ResourceRef :=
  let path := (snd parent ++ [part])%list in
  update (fst parent) (onRestApi (apigateway.addResource path)) ;;
  ret (fst parent, path).

Definition addMethod (res : ResourceRef) (m : string)
  (i : apigateway.Integration) : Build unit :=
  update (fst res) (onRestApi (apigateway.addMethod (snd res) m i)).

(** [resource.addProxy({anyMethod: true, defaultIntegration})]: the greedy
    child resource, with an [ANY] method on the default integration. *)
Definition addProxy (parent : ResourceRef)
  (defaultIntegration : apigateway.Integration) : Build ResourceRef :=
  proxy <- addResource parent "{proxy+}" ;;
  addMethod proxy "ANY" defaultIntegration ;;
  ret proxy.

Definition new_Deployment id (d : apigateway.Deployment) : Build string :=
  addChild id (CDeployment d).

Definition new_Stage id (s : apigateway.Stage) : Build string :=
  addChild id (CStage s).

Definition new_CfnOutput id (o : CfnOutput) : Build string :=
  addChild id (COutput o).

(* ===================================================================== *)
(** ** The stack *)
(* ===================================================================== *)

Definition email_pattern_text : string :=
  "\b[\w.%+-]+@[\w.-]+\.[a-zA-Z]{2,6}\b".

(** The properties of the three parameters the constructor declares. *)
Definition domainName_props : CfnParameterProps := {|
  type := TString;
  minLength := Some 1;
  maxLength := None;
  allowedPattern := None;
  minValue := None;
  maxValue := None;
  default := None;
  description := "Please input your domain names for applying SSL Certificate, please using commas(,) to separate multiple domains. eg.: www.example.cn,example.cn,*.example.com"
|}.

Definition emailAddress_props : CfnParameterProps := {|
  type := TString;
  minLength := Some 1;
  maxLength := None;
  allowedPattern := Some email_pattern_text;
  minValue := None;
  maxValue := None;
  default := None;
  description := "Please input your Email address for Email notification."
|}.

Definition renewIntervalDays_props : CfnParameterProps := {|
  type := TNumber;
  minLength := None;
  maxLength := None;
  allowedPattern := None;
  minValue := Some 1%Q;
  maxValue := Some 89%Q;
  default := Some (PNum 80%Q);
  description := "Please input renew interval days between 1 to 89 days, default renew interval days is 80 days."
|}.

(** The constructor of [ChinaCloudFrontSslPluginStack], statement by
    statement. *)
Definition ChinaCloudFrontSslPluginStack : Build unit :=
  set_description "(SO8156-cn) - China CloudFront SSL Plugin" ;;

  domainName <- new_CfnParameter "domainName" domainName_props ;;

  emailAddress <- new_CfnParameter "emailAddress" emailAddress_props ;;

  renewIntervalDays <- new_CfnParameter "renewIntervalDays"
                         renewIntervalDays_props ;;

  set_metadata {|
    ParameterGroups := [[logicalId emailAddress; logicalId domainName;
                         logicalId renewIntervalDays]];
    ParameterLabels := [("domainName", "Domain Name");
                        ("emailAddress", "Email");
                        ("renewIntervalDays", "SSL Renew Interval Days")]
  |} ;;

  cert_topic <- new_Topic "Topic"
    (Aws.STACK_NAME +# Lit "-Issue-SSL-Notification")%tok ;;

  addSubscription cert_topic
    (sns.EmailSubscription (valueAsString emailAddress)) ;;

  cert_bucket <- new_Bucket "CertBucket"
    {| s3.removalPolicy := s3.DESTROY |} ;;

  certbot_lambda_fn <- new_Function "CertBotFunction" {|
    lambda.code := lambda.fromAsset "../lambda/CertBot/certbot"
      (Some {| lambda.image := lambda.PYTHON_3_10;
               lambda.command := ["bash"; "-c";
                 "pip install -r requirements.txt -t /asset-output && cp -au . /asset-output"];
               lambda.user := None |});
    lambda.runtime := lambda.PYTHON_3_10;
    lambda.handler := "app.handler";
    lambda.description := "Core Function for issuing certificates";
    lambda.environment := [
      ("CERTBOT_BUCKET", bucketName cert_bucket);
      ("DOMAINS_LIST", valueAsString domainName);
      ("DOMAINS_EMAIL", valueAsString emailAddress);
      ("STACK_NAME", Aws.STACK_NAME);
      ("REGION", Aws.REGION);
      ("TOPIC_ARN", topicArn cert_topic);
      ("MAX_DIST_ITEMS", Lit "200");
      ("DIST_PAGE_SIZE", Lit "20")];
    lambda.memorySize := Some 256;
    lambda.timeout := DurationOps.seconds 900%Q
  |} ;;

  addToRolePolicy certbot_lambda_fn {|
    iam.resources := [Lit "*"];
    iam.actions := [
      "cloudfront:GetDistribution";
      "cloudfront:ListDistributions";
      "cloudfront:UpdateDistribution";
      "cloudfront:GetDistributionConfig";
      "route53:GetChange";
      "iam:ListServerCertificates";
      "route53:ListHostedZones"];
    iam.effect := iam.ALLOW
  |} ;;
  addToRolePolicy certbot_lambda_fn {|
    iam.resources := [
      (Lit "arn:aws-cn:iam::" +# Aws.ACCOUNT_ID +# Lit ":server-certificate/*")%tok;
      Lit "arn:aws-cn:route53:::hostedzone/*";
      bucketArn cert_bucket;
      (bucketArn cert_bucket +# Lit "/*")%tok;
      topicArn cert_topic];
    iam.actions := [
      "iam:GetServerCertificate";
      "iam:UpdateServerCertificate";
      "iam:ListServerCertificateTags";
      "iam:DeleteServerCertificate";
      "iam:TagServerCertificate";
      "route53:ChangeResourceRecordSets";
      "iam:UntagServerCertificate";
      "iam:UploadServerCertificate";
      "s3:ListBucket";
      "s3:PutObject";
      "s3:GetObject";
      "sns:Publish"];
    iam.effect := iam.ALLOW
  |} ;;

  cfn_created_rule <- new_Rule "CertCfnCreatedRule" {|
    events.description := Lit "Trigger lambda function after stack created";
    events.enabled := true;
    events.eventPattern := Some {|
      events.source := Some ["aws.cloudformation"];
      events.detailType := Some ["CloudFormation Stack Status Change"];
      events.detail := Some (events.PObject [
        ("stack-id", events.PValues [Aws.STACK_ID]);
        ("status-details", events.PObject [
          ("status", events.PValues [Lit "CREATE_COMPLETE";
                                     Lit "UPDATE_COMPLETE"])])])
    |};
    events.schedule := None
  |} ;;
  addTarget cfn_created_rule (events.mkTarget certbot_lambda_fn None) ;;

  addPermission certbot_lambda_fn "CertCfnCreatedEventInvokeLambda" {|
    lambda.action := "lambda:InvokeFunction";
    lambda.principal := iam.ServicePrincipal "events.amazonaws.com";
    lambda.sourceArn := ruleArn cfn_created_rule
  |} ;;

  scheduled_event_rule <- new_Rule "CertScheduledRule" {|
    events.description :=
      (Lit "Automatically trigger cert lambda function every "
       +# valueAsNumber renewIntervalDays +# Lit " days")%tok;
    events.enabled := true;
    events.eventPattern := None;
    events.schedule :=
      Some (Rate (DurationOps.days (valueAsNumber renewIntervalDays)))
  |} ;;
  addTarget scheduled_event_rule (events.mkTarget certbot_lambda_fn None) ;;

  addPermission certbot_lambda_fn "ScheduledEventsInvokeLambda" {|
    lambda.action := "lambda:InvokeFunction";
    lambda.principal := iam.ServicePrincipal "events.amazonaws.com";
    lambda.sourceArn := ruleArn cfn_created_rule
  |} ;;

  (* Cert Management *)

  mgmt_rest_api <- new_RestApi "SslCertManageAPI" {|
    apigateway.restApiName :=
      (Aws.STACK_NAME +# Lit ": SSL Cert Management API")%tok;
    apigateway.description :=
      (Aws.STACK_NAME +# Lit ": SSL Cert Management API")%tok;
    apigateway.deploy := false;
    apigateway.cloudWatchRole := true;
    apigateway.defaultCorsPreflightOptions := Some {|
      apigateway.allowHeaders :=
        ["Content-Type"; "X-Amz-Date"; "Authorization"; "X-Api-Key"];
      apigateway.allowMethods := ["POST"; "OPTION"];
      apigateway.allowCredentials := true;
      apigateway.allowOrigins := apigateway.Cors.ALL_ORIGINS
    |};
    apigateway.endpointTypes := [apigateway.REGIONAL]
  |} ;;

  let invokeUrl :=
    (Lit "https://" +# restApiId mgmt_rest_api +# Lit ".execute-api."
     +# Aws.REGION +# Lit ".amazonaws.com.cn/prod")%tok in

  apiDocFunction <- new_Function "APIExplorerFunction" {|
    lambda.code := lambda.fromAsset "../lambda/api-explorer"
      (Some {| lambda.image := lambda.NODEJS_18_X;
               lambda.command := ["bash"; "-c";
                 "cp -au . /asset-output && cd /asset-output && npm install"];
               lambda.user := Some "root" |});
    lambda.runtime := lambda.NODEJS_18_X;
    lambda.handler := "app.handler";
    lambda.description := "API Explorer for management certificates";
    lambda.environment := [("SWAGGER_SPEC_URL", invokeUrl)];
    lambda.memorySize := None;
    lambda.timeout := DurationOps.seconds 20%Q
  |} ;;

  deleteCertFunction <- new_Function "DeleteCertFunction" {|
    lambda.code := lambda.fromAsset "../lambda/ManageCert/DeleteCert" None;
    lambda.runtime := lambda.PYTHON_3_9;
    lambda.handler := "app.handler";
    lambda.description := "API for delete IAM certificates";
    lambda.environment := [];
    lambda.memorySize := None;
    lambda.timeout := DurationOps.seconds 20%Q
  |} ;;

  listCertFunction <- new_Function "ListCertFunction" {|
    lambda.code := lambda.fromAsset "../lambda/ManageCert/ListCert" None;
    lambda.runtime := lambda.PYTHON_3_9;
    lambda.handler := "app.handler";
    lambda.description := "API for list IAM certificates";
    lambda.environment := [];
    lambda.memorySize := None;
    lambda.timeout := DurationOps.seconds 20%Q
  |} ;;

  addToRolePolicy deleteCertFunction {|
    iam.effect := iam.ALLOW;
    iam.actions := ["iam:DeleteServerCertificate"];
    iam.resources := [Lit "*"]
  |} ;;

  addToRolePolicy listCertFunction {|
    iam.effect := iam.ALLOW;
    iam.actions := ["iam:ListServerCertificates"];
    iam.resources := [Lit "*"]
  |} ;;

  deployment <- new_Deployment "mgmt_deployment"
    {| apigateway.api := mgmt_rest_api |} ;;

  deploymentStage <- new_Stage "ssl-cert-prod" {|
    apigateway.stageName := "prod";
    apigateway.deployment := deployment;
    apigateway.dataTraceEnabled := true;
    apigateway.loggingLevel := apigateway.INFO
  |} ;;

  api_explprer_resource <- addResource (root mgmt_rest_api) "api-explorer" ;;
  proxy <- addProxy api_explprer_resource
             (apigateway.LambdaIntegration apiDocFunction true) ;;
  addMethod api_explprer_resource "GET"
    (apigateway.LambdaIntegration apiDocFunction true) ;;

  delete_resource <- addResource (root mgmt_rest_api) "delete-ssl-cert" ;;
  addMethod delete_resource "POST"
    (apigateway.LambdaIntegration deleteCertFunction true) ;;

  list_resource <- addResource (root mgmt_rest_api) "list-ssl-cert" ;;
  addMethod list_resource "GET"
    (apigateway.LambdaIntegration listCertFunction true) ;;

  let s3URL :=
    (Lit "https://" +# Aws.REGION +# Lit ".console.amazonaws.cn/s3/buckets/"
     +# bucketName cert_bucket)%tok in

  addEnvironment certbot_lambda_fn "API_EXPLORER"
    (invokeUrl +# Lit "/api-explorer/")%tok ;;

  new_CfnOutput "S3-Bucket-URL" {|
    value := s3URL;
    output_description := "Download SSL certification from S3 bucket"
  |} ;;

  new_CfnOutput "Management-Web-URL" {|
    value := (invokeUrl +# Lit "/api-explorer/")%tok;
    output_description := "For IAM SSL Certification Management API UI"
  |} ;;

  new_CfnOutput "Cloudfront-Console" {|
    value := Lit "https://console.amazonaws.cn/cloudfront";
    output_description := "Check IAM SSL Certification and use it in CloudFront, please find doc on: https://docs.amazonaws.cn/AmazonCloudFront/latest/DeveloperGuide/cnames-and-https-procedures.html#cnames-and-https-updating-cloudfront"
  |} ;;

  ret tt.

(** The synthesized stack. *)
Definition the_stack : Stack :=
  execState ChinaCloudFrontSslPluginStack empty_stack.

(** *** Reading the synthesized stack *)

Definition find (s : Stack) (id : string) : option Construct :=
  lookup id (children s).

Definition find_parameter s id : option CfnParameterProps :=
  match find s id with Some (CParameter p) => Some p | _ => None end.

Definition find_function s id : option lambda.LambdaFunction :=
  match find s id with Some (CFunction f) => Some f | _ => None end.

Definition find_rule s id : option events.Rule :=
  match find s id with Some (CRule r) => Some r | _ => None end.

Definition find_api s id : option apigateway.RestApi :=
  match find s id with Some (CRestApi a) => Some a | _ => None end.

Fixpoint select {A} (pick : Construct -> option A)
  (l : list (string * Construct)) : list (string * A) :=
  match l with
  | [] => []
  | (id, c) :: l' =>
      match pick c with
      | Some a => (id, a) :: select pick l'
      | None => select pick l'
      end
  end.

Definition parameters_of (s : Stack) : list (string * CfnParameterProps) :=
  select (fun c => match c with CParameter p => Some p | _ => None end)
         (children s).

Definition functions_of (s : Stack) : list (string * lambda.LambdaFunction) :=
  select (fun c => match c with CFunction f => Some f | _ => None end)
         (children s).

Definition rules_of (s : Stack) : list (string * events.Rule) :=
  select (fun c => match c with CRule r => Some r | _ => None end)
         (children s).

(** Every permission the stack adds with [addPermission], with the function
    it is on. *)
Definition explicit_permissions (s : Stack)
  : list (string * string * lambda.Permission) :=
  flat_map (fun kf => map (fun ip => (fst kf, fst ip, snd ip))
                          (lambda.permissions (snd kf)))
           (functions_of s).

(* ===================================================================== *)
(** ** Creating the stack from the template *)
(* ===================================================================== *)

(** What the operator and CloudFormation fix when the stack is created. *)
Record Instance := mkInstance {
  stackId : string;
  stackName : string;
  region : string;
  accountId : string;
  parameterValues : list (string * ParamValue)
}.

(** The value CloudFormation takes for a parameter: the one supplied, or
    else the declared default. *)
Definition chosen (p : CfnParameterProps) (supplied : option ParamValue)
  : option ParamValue :=
  match supplied with
  | Some v => Some v
  | None => default p
  end.

(** The value of every declared parameter; [None] when a value is missing
    or breaks a constraint, in which case CloudFormation refuses to create
    the stack. *)
Fixpoint check_parameters (decls : list (string * CfnParameterProps))
  (supplied : list (string * ParamValue))
  : option (list (string * ParamValue)) :=
  match decls with
  | [] => Some []
  | (x, p) :: decls' =>
      match chosen p (lookup x supplied) with
      | Some v =>
          if param_accepts p v then
            match check_parameters decls' supplied with
            | Some vs => Some ((x, v) :: vs)
            | None => None
            end
          else None
      | None => None
      end
  end.

Definition accepted_parameters (s : Stack) (i : Instance) :=
  check_parameters (parameters_of s) (parameterValues i).

Definition token_of_value (v : ParamValue) : Token :=
  match v with PStr s => Lit s | PNum q => Num q end.

(** The references an instance resolves: pseudo parameters and
    parameters.  Names and attributes of resources stay symbolic. *)
Definition resolve (i : Instance) (vals : list (string * ParamValue))
  (x : string) : option Token :=
  if String.eqb x "AWS::StackName" then Some (Lit (stackName i))
  else if String.eqb x "AWS::StackId" then Some (Lit (stackId i))
  else if String.eqb x "AWS::Region" then Some (Lit (region i))
  else if String.eqb x "AWS::AccountId" then Some (Lit (accountId i))
  else option_map token_of_value (lookup x vals).

Definition subst_env rho (e : list (string * Token)) :=
  map (fun kv => (fst kv, subst rho (snd kv))) e.

Definition subst_schedule rho (sc : Schedule) : Schedule :=
  match sc with Rate d => Rate (DurationOps.subst_duration rho d) end.

(** *** Rate expressions *)

(** The label of a unit of time. *)
Definition unit_label (u : TimeUnit) : string :=
  match u with
  | Seconds => "seconds"
  | Minutes => "minutes"
  | Hours => "hours"
  | Days => "days"
  end.

(** The expression of [Schedule.rate(duration)] for a duration whose
    amount is a token when the stack is synthesized, as is the amount of
    the one schedule of the stack: [rate(<amount> <label>)], with the
    label of the unit as it is, in the plural. *)
Definition expressionString (sc : Schedule) : Token :=
  match sc with
  | Rate d =>
      (Lit "rate(" +# amount d +# Lit (" " ++ unit_label (timeUnit d) ++ ")"))%tok
  end.

(** The whole number a number is, if it is one. *)
Definition whole_number (q : Q) : option Z :=
  let r := Qred q in
  if Pos.eqb (Qden r) 1 then Some (Qnum r) else None.

(** The units of a rate expression, as they end the expression: whether
    the unit is in the singular, and its length in seconds. *)
Definition rate_units : list (string * (bool * Q)) :=
  [(" minute)", (true, 60%Q)); (" minutes)", (false, 60%Q));
   (" hour)", (true, 3600%Q)); (" hours)", (false, 3600%Q));
   (" day)", (true, 86400%Q)); (" days)", (false, 86400%Q))].

(** How the scheduler reads [rate(value unit)]: the value has to be a
    positive whole number, the unit [minute], [hour] or [day] in the
    singular for the value 1 and in the plural for a greater value.  The
    period in seconds, or [None] for an expression that is refused. *)
Definition rate_period (expression : Token) : option Q :=
  match expression with
  | Cat (Cat (Lit "rate(") (Num v)) (Lit unit_end) =>
      match lookup unit_end rate_units, whole_number v with
      | Some (singular, seconds), Some n =>
          if (0 <? n)%Z && Bool.eqb singular (n =? 1)%Z
          then Some (v * seconds)%Q
          else None
      | _, _ => None
      end
  | _ => None
  end.

(** The period of a schedule, in seconds, when its expression is one the
    scheduler accepts. *)
Definition period_seconds (sc : Schedule) : option Q :=
  rate_period (expressionString sc).

(** A number of days for which the expression of the scheduled rule of
    the stack is accepted: a whole number greater than 1. *)
Definition schedulable (v : Q) : bool :=
  match whole_number v with
  | Some n => (1 <? n)%Z
  | None => false
  end.

(* ===================================================================== *)
(** ** Events and rules *)
(* ===================================================================== *)

(** Events are JSON objects; texts and objects are all the patterns of the
    stack look at. *)
Inductive Json :=
| JStr (s : string)
| JObj (fields : list (string * Json)).

Fixpoint get (path : list string) (j : Json) : option Json :=
  match path with
  | [] => Some j
  | k :: path' =>
      match j with
      | JObj fields =>
          match lookup k fields with
          | Some j' => get path' j'
          | None => None
          end
      | JStr _ => None
      end
  end.

(** A leaf matches a text that is one of its values; a node matches an
    object that has every named field, each matching in turn. *)
Fixpoint pattern_matches (rho : string -> option Token)
  (p : events.Pattern) (j : Json) {struct p} : bool :=
  match p with
  | events.PValues vs =>
      match j with
      | JStr s =>
          existsb (fun v => match as_string (subst rho v) with
                            | Some t => String.eqb t s
                            | None => false
                            end) vs
      | JObj _ => false
      end
  | events.PObject fields =>
      match j with
      | JObj efields =>
          (fix all (fs : list (string * events.Pattern)) : bool :=
             match fs with
             | [] => true
             | (k, q) :: fs' =>
                 match lookup k efields with
                 | Some j' => pattern_matches rho q j'
                 | None => false
                 end && all fs'
             end) fields
      | JStr _ => false
      end
  end.

Definition strings (l : list string) : events.Pattern :=
  events.PValues (map Lit l).

(** The pattern an [EventPattern] stands for: [detailType] is the field
    [detail-type] of the event. *)
Definition render_pattern (ep : events.EventPattern) : events.Pattern :=
  events.PObject
    (match events.source ep with
     | Some l => [("source", strings l)] | None => [] end
     ++ match events.detailType ep with
        | Some l => [("detail-type", strings l)] | None => [] end
     ++ match events.detail ep with
        | Some d => [("detail", d)] | None => [] end)%list.

Definition rule_matches rho (r : events.Rule) (e : Json) : bool :=
  events.enabled (events.props r)
  && match events.eventPattern (events.props r) with
     | Some ep => pattern_matches rho (render_pattern ep) e
     | None => false
     end.

(** One run of a function: which rule started it, the environment the
    function sees, its input ([None]: the event that started it), and the
    time after which the run is cut off. *)
Record Invocation := mkInvocation {
  by_rule : string;
  function : string;
  environment : list (string * Token);
  input : option Token;
  time_limit : Duration
}.

Definition invoke (s : Stack) rho (rule : string) (t : events.LambdaTarget)
  : list Invocation :=
  match find_function s (events.handler t) with
  | Some f =>
      [mkInvocation rule (events.handler t)
                    (subst_env rho (lambda.env f))
                    (option_map (subst rho) (events.event t))
                    (lambda.timeout (lambda.props f))]
  | None => []
  end.

(** The runs an event on the bus starts.  Nothing runs for a stack that
    CloudFormation refused to create. *)
Definition on_event (s : Stack) (i : Instance) (e : Json) : list Invocation :=
  match accepted_parameters s i with
  | None => []
  | Some vals =>
      let rho := resolve i vals in
      flat_map (fun kr =>
                  if rule_matches rho (snd kr) e
                  then flat_map (invoke s rho (fst kr))
                                (events.targets (snd kr))
                  else [])
               (rules_of s)
  end.

(** The runs the scheduler starts again and again, each with the schedule
    that starts it.  A rule whose rate expression the scheduler refuses
    starts none. *)
Definition on_schedule (s : Stack) (i : Instance)
  : list (Schedule * Invocation) :=
  match accepted_parameters s i with
  | None => []
  | Some vals =>
      let rho := resolve i vals in
      flat_map (fun kr =>
                  match events.schedule (events.props (snd kr)) with
                  | Some sc =>
                      if events.enabled (events.props (snd kr))
                      then match rate_period (subst rho (expressionString sc))
                           with
                           | Some _ =>
                               map (fun inv => (subst_schedule rho sc, inv))
                                   (flat_map (invoke s rho (fst kr))
                                             (events.targets (snd kr)))
                           | None => []
                           end
                      else []
                  | None => []
                  end)
               (rules_of s)
  end.

(** The runs a sequence of events starts through rule [rule]. *)
Definition firings (s : Stack) (i : Instance) (rule : string)
  (trace : list Json) : list Invocation :=
  filter (fun inv => String.eqb (by_rule inv) rule)
         (flat_map (on_event s i) trace).

(** The event CloudFormation puts on the bus when a stack changes status. *)
Definition stack_status_change (stack_id status : string) : Json :=
  JObj [("source", JStr "aws.cloudformation");
        ("detail-type", JStr "CloudFormation Stack Status Change");
        ("detail", JObj [("stack-id", JStr stack_id);
                         ("status-details",
                          JObj [("status", JStr status);
                                ("status-reason", JStr "")])])].

(* ===================================================================== *)
(** ** Policies *)
(* ===================================================================== *)

(** Wildcard matching of policy elements: [*] stands for any text, [?]
    for any one character. *)
Fixpoint glob (p s : list ascii) {struct p} : bool :=
  match p with
  | [] => match s with [] => true | _ => false end
  | "*"%char :: p' =>
      (fix star (s : list ascii) : bool :=
         glob p' s || match s with [] => false | _ :: s' => star s' end) s
  | "?"%char :: p' =>
      match s with [] => false | _ :: s' => glob p' s' end
  | c :: p' =>
      match s with [] => false | d :: s' => Ascii.eqb c d && glob p' s' end
  end.

Definition lower (c : ascii) : ascii :=
  if Regex.in_range "A" "Z" c
  then ascii_of_N (N_of_ascii c + 32) else c.

Definition lowercase (s : string) : list ascii :=
  map lower (list_ascii_of_string s).

(** Action names are compared without regard to case. *)
Definition action_matches (pattern action : string) : bool :=
  glob (lowercase pattern) (lowercase action).

Definition resource_matches rho (pattern : Token) (arn : string) : bool :=
  match as_string (subst rho pattern) with
  | Some p => glob (list_ascii_of_string p) (list_ascii_of_string arn)
  | None => false
  end.

Definition statement_applies rho (st : iam.PolicyStatement)
  (action arn : string) : bool :=
  existsb (fun a => action_matches a action) (iam.actions st)
  && existsb (fun r => resource_matches rho r arn) (iam.resources st).

Definition is_allow (st : iam.PolicyStatement) : bool :=
  match iam.effect st with iam.ALLOW => true | iam.DENY => false end.

(** A request is allowed when an [ALLOW] statement applies to it and no
    [DENY] statement does. *)
Definition policy_allows rho (policy : list iam.PolicyStatement)
  (action arn : string) : bool :=
  existsb (fun st => is_allow st && statement_applies rho st action arn)
          policy
  && negb (existsb (fun st => negb (is_allow st)
                              && statement_applies rho st action arn)
                   policy).

(** The action names an [ALLOW] statement of the policy lists. *)
Definition allowed_actions (policy : list iam.PolicyStatement) : list string :=
  flat_map iam.actions (filter is_allow policy).

Definition role_policy (s : Stack) (fn : string) : list iam.PolicyStatement :=
  match find_function s fn with
  | Some f => lambda.rolePolicy f
  | None => []
  end.

(** The operation of an action name, after the service prefix. *)
Fixpoint operation (a : string) : string :=
  match a with
  | EmptyString => EmptyString
  | String ":" rest => rest
  | String _ rest => operation rest
  end.

(** Read-level actions only list or read: their operation is named
    [List...], [Get...] or [Describe...]. *)
Definition read_level (a : string) : bool :=
  let op := operation a in
  String.prefix "List" op || String.prefix "Get" op
  || String.prefix "Describe" op.

(* ===================================================================== *)
(** ** The management API *)
(* ===================================================================== *)

Definition api_methods (s : Stack) (api : string) : list apigateway.Method :=
  match find_api s api with
  | Some a => apigateway.methods a
  | None => []
  end.

(** A route: method, path, and the function behind it. *)
Definition Route := (string * list string * string)%type.

Definition route_of (m : apigateway.Method) : option Route :=
  match apigateway.integration m with
  | apigateway.LambdaIntegration fn _ =>
      Some (apigateway.httpMethod m, apigateway.resource m, fn)
  | apigateway.MockIntegration => None
  end.

Fixpoint routes (ms : list apigateway.Method) : list Route :=
  match ms with
  | [] => []
  | m :: ms' =>
      match route_of m with
      | Some r => r :: routes ms'
      | None => routes ms'
      end
  end.

(** The routes of the API that lead to a function other than the API
    explorer, which only serves the documentation of the API. *)
Definition management_routes (s : Stack) (api explorer : string) : list Route :=
  filter (fun r => negb (String.eqb (snd r) explorer))
         (routes (api_methods s api)).


(* ===================================================================== *)
(** ** Notions the properties are stated with *)
(* ===================================================================== *)

(** The value CloudFormation checks for the declared parameter [x]. *)
Definition requested (s : Stack) (i : Instance) (x : string)
  : option ParamValue :=
  match find_parameter s x with
  | Some p => chosen p (lookup x (parameterValues i))
  | None => None
  end.

(** The same request with parameter [x] set to [v]. *)
Definition with_parameter (x : string) (v : ParamValue) (i : Instance) :=
  mkInstance (stackId i) (stackName i) (region i) (accountId i)
             ((x, v) :: parameterValues i).

Definition parameter_accepts (s : Stack) (x : string) (v : ParamValue) : bool :=
  match find_parameter s x with
  | Some p => param_accepts p v
  | None => false
  end.

(** *** Shape of an accepted email address *)

Definition local_char (c : ascii) : bool :=
  Regex.is_word c || Ascii.eqb "." c || Ascii.eqb "%" c || Ascii.eqb "+" c
  || Ascii.eqb "-" c.

Definition domain_char (c : ascii) : bool :=
  Regex.is_word c || Ascii.eqb "." c || Ascii.eqb "-" c.

Definition letter (c : ascii) : bool :=
  Regex.in_range "a" "z" c || Regex.in_range "A" "Z" c.

(** [local@domain.tld]: a local part of word characters and [.%+-] that
    starts with a word character, a domain of word characters and [.-],
    and two to six letters after the last dot. *)
Definition email_shape (s : string) : Prop :=
  exists (c : ascii) (l d t : list ascii),
    list_ascii_of_string s = ((c :: l) ++ "@"%char :: d ++ "."%char :: t)%list
    /\ Regex.is_word c = true
    /\ forallb local_char l = true
    /\ d <> []
    /\ forallb domain_char d = true
    /\ 2 <= List.length t <= 6
    /\ forallb letter t = true.

(** *** Shape of a list of domain names *)

(** The texts between the commas of [s]. *)
Fixpoint split_commas (cur : list ascii) (s : list ascii)
  : list (list ascii) :=
  match s with
  | [] => [rev cur]
  | ","%char :: s' => rev cur :: split_commas [] s'
  | c :: s' => split_commas (c :: cur) s'
  end.

Definition name_char (c : ascii) : bool :=
  Regex.is_word c || Ascii.eqb "." c || Ascii.eqb "-" c || Ascii.eqb "*" c.

(** The least one asks of a domain list such as
    [www.example.cn,example.cn,*.example.com]: between the commas stand
    non-empty texts of letters, digits, dots, hyphens and the wildcard. *)
Definition domain_list_shape (s : string) : bool :=
  forallb (fun name => negb (Nat.eqb (List.length name) 0)
                       && forallb name_char name)
          (split_commas [] (list_ascii_of_string s)).

(** *** Events that complete a creation or an update of the stack *)

Definition text_at (path : list string) (e : Json) : option string :=
  match get path e with
  | Some (JStr s) => Some s
  | _ => None
  end.

Definition text_is (path : list string) (expected : string) (e : Json) : bool :=
  match text_at path e with
  | Some s => String.eqb expected s
  | None => false
  end.

Definition completes (status : string) (i : Instance) (e : Json) : bool :=
  text_is ["source"] "aws.cloudformation" e
  && text_is ["detail-type"] "CloudFormation Stack Status Change" e
  && text_is ["detail"; "stack-id"] (stackId i) e
  && text_is ["detail"; "status-details"; "status"] status e.

Definition completes_create_or_update (i : Instance) (e : Json) : bool :=
  completes "CREATE_COMPLETE" i e || completes "UPDATE_COMPLETE" i e.

(** *** What a run is given *)

Definition Qeqb (a b : Q) : bool := Qeq_bool a b.

(** Does the number [q] occur in the expression? *)
Fixpoint has_number (q : Q) (t : Token) : bool :=
  match t with
  | Num q' => Qeqb q q'
  | Cat a b => has_number q a || has_number q b
  | _ => false
  end.

(** A run is given the number [q] when it stands in a variable of its
    environment or in its input. *)
Definition given_number (q : Q) (inv : Invocation) : bool :=
  existsb (fun kv => has_number q (snd kv)) (environment inv)
  || match input inv with Some t => has_number q t | None => false end.

(** The pattern of [emailAddress], read. *)
Definition email_regex : Regex.regex :=
  [ Regex.mkPiece Regex.ABound 1 (Some 1);
    Regex.mkPiece (Regex.ASet [Regex.CWord; Regex.CChar "."; Regex.CChar "%";
                               Regex.CChar "+"; Regex.CChar "-"]) 1 None;
    Regex.mkPiece (Regex.ASet [Regex.CChar "@"]) 1 (Some 1);
    Regex.mkPiece (Regex.ASet [Regex.CWord; Regex.CChar "."; Regex.CChar "-"])
                  1 None;
    Regex.mkPiece (Regex.ASet [Regex.CChar "."]) 1 (Some 1);
    Regex.mkPiece (Regex.ASet [Regex.CRange "a" "z"; Regex.CRange "A" "Z"])
                  2 (Some 6);
    Regex.mkPiece Regex.ABound 1 (Some 1) ].

Definition last_char (prev : option ascii) (w : list ascii) : option ascii :=
  fold_left (fun _ c => Some c) w prev.

Definition within (max : option nat) (n : nat) : Prop :=
  match max with Some m => n <= m | None => True end.

(** *** The synthesized stack, evaluated *)

Definition declared_rules : list (string * events.Rule) :=
  Eval vm_compute in rules_of the_stack.

Definition certbot_function : option lambda.LambdaFunction :=
  Eval vm_compute in find_function the_stack "CertBotFunction".

(** The environment of the issuing function in an instance with domain
    list [d] and email address [e]. *)
Definition certbot_environment (i : Instance) (d e : string)
  : list (string * Token) :=
  [("CERTBOT_BUCKET", Ref "CertBucket");
   ("DOMAINS_LIST", Lit d);
   ("DOMAINS_EMAIL", Lit e);
   ("STACK_NAME", Lit (stackName i));
   ("REGION", Lit (region i));
   ("TOPIC_ARN", Ref "Topic");
   ("MAX_DIST_ITEMS", Lit "200");
   ("DIST_PAGE_SIZE", Lit "20");
   ("API_EXPLORER",
    (Lit "https://" +# Ref "SslCertManageAPI" +# Lit ".execute-api."
     +# Lit (region i) +# Lit ".amazonaws.com.cn/prod"
     +# Lit "/api-explorer/")%tok)].

Definition certbot_run (rule : string) (i : Instance) (d e : string)
  : Invocation :=
  mkInvocation rule "CertBotFunction" (certbot_environment i d e) None
               (DurationOps.seconds 900%Q).

Definition configuration (d e : string) (v : Q) : list (string * ParamValue) :=
  [("domainName", PStr d); ("emailAddress", PStr e);
   ("renewIntervalDays", PNum v)].

(** *** Sample requests *)

Definition sample_stack_id : string :=
  "arn:aws-cn:cloudformation:cn-north-1:123456789012:stack/ssl-plugin/0a1b2c".

(** A request with a renew interval of 30 days. *)
Definition sample_instance : Instance :=
  mkInstance sample_stack_id "ssl-plugin" "cn-north-1" "123456789012"
             [("domainName", PStr "www.example.cn,*.example.cn");
              ("emailAddress", PStr "ops@example.cn");
              ("renewIntervalDays", PNum 30%Q)].

(** A request whose domain list is a lone comma; the interval is left to
    its default. *)
Definition comma_instance : Instance :=
  mkInstance sample_stack_id "ssl-plugin" "cn-north-1" "123456789012"
             [("domainName", PStr ",");
              ("emailAddress", PStr "ops@example.cn")].

(** A request with a renew interval of 90 days. *)
Definition late_instance : Instance :=
  with_parameter "renewIntervalDays" (PNum 90%Q) sample_instance.

Definition created_event : Json :=
  stack_status_change sample_stack_id "CREATE_COMPLETE".

Definition updated_event : Json :=
  stack_status_change sample_stack_id "UPDATE_COMPLETE".

(** All the runs of an instance that event [ev] or the scheduler starts. *)
Definition runs (s : Stack) (i : Instance) (ev : Json) : list Invocation :=
  (on_event s i ev ++ map snd (on_schedule s i))%list.

(** *** The statements that do not hold of the stack *)

(** Every run is given the renew interval of its instance. *)
Definition runs_given_renew_interval : Prop :=
  forall i d e v ev run,
    accepted_parameters the_stack i = Some (configuration d e v) ->
    In run (runs the_stack i ev) ->
    given_number v run = true.

(** The rule on stack events starts a run only when the creation of the
    stack completes, and at most one run over any sequence of events. *)
Definition fires_once_on_creation : Prop :=
  forall i d e v,
    accepted_parameters the_stack i = Some (configuration d e v) ->
    (forall ev, firings the_stack i "CertCfnCreatedRule" [ev] <> [] ->
                completes "CREATE_COMPLETE" i ev = true)
    /\ (forall trace,
          List.length (firings the_stack i "CertCfnCreatedRule" trace) <= 1).

(** Every accepted configuration has a domain list, an email address and
    a renew interval of the right shape. *)
Definition accepted_values_valid : Prop :=
  forall i d e v,
    accepted_parameters the_stack i = Some (configuration d e v) ->
    domain_list_shape d = true /\ email_shape e /\ (1 <= v <= 89)%Q.

(** *** Policy elements without wildcards *)

Definition plain_char (c : ascii) : bool :=
  negb (Ascii.eqb c "*") && negb (Ascii.eqb c "?").

(** The permission both [addPermission] calls of the constructor give. *)
Definition lifecycle_rule_permission : lambda.Permission := {|
  lambda.action := "lambda:InvokeFunction";
  lambda.principal := iam.ServicePrincipal "events.amazonaws.com";
  lambda.sourceArn := ruleArn "CertCfnCreatedRule"
|}.

(** *** Further constructs of the synthesized stack *)

Definition find_topic s id : option sns.Topic :=
  match find s id with Some (CTopic t) => Some t | _ => None end.

Definition find_output s id : option CfnOutput :=
  match find s id with Some (COutput o) => Some o | _ => None end.

Definition find_stage s id : option apigateway.Stage :=
  match find s id with Some (CStage st) => Some st | _ => None end.

Definition find_deployment s id : option apigateway.Deployment :=
  match find s id with Some (CDeployment d) => Some d | _ => None end.

(** The addresses subscribed to a topic, in an instance. *)
Definition subscribers rho (t : sns.Topic) : list Token :=
  map (fun sub => match sub with
                  | sns.EmailSubscription a => subst rho a
                  end)
      (sns.subscriptions t).

Definition certbot_policy : list iam.PolicyStatement :=
  Eval vm_compute in role_policy the_stack "CertBotFunction".

(** The statement of the issuing function's policy that names its
    resources one by one (the second [addToRolePolicy] call). *)
Definition certbot_scoped_actions : list string :=
  ["iam:GetServerCertificate";
   "iam:UpdateServerCertificate";
   "iam:ListServerCertificateTags";
   "iam:DeleteServerCertificate";
   "iam:TagServerCertificate";
   "route53:ChangeResourceRecordSets";
   "iam:UntagServerCertificate";
   "iam:UploadServerCertificate";
   "s3:ListBucket";
   "s3:PutObject";
   "s3:GetObject";
   "sns:Publish"].

(** The ARN of a server certificate and of a hosted zone. *)
Definition server_certificate_arn (account name : string) : string :=
  "arn:aws-cn:iam::" ++ account ++ ":server-certificate/" ++ name.

Definition hosted_zone_arn (zone : string) : string :=
  "arn:aws-cn:route53:::hostedzone/" ++ zone.

(** *** References between constructs *)

(** The logical ids an expression refers to. *)
Fixpoint refs (t : Token) : list string :=
  match t with
  | Lit _ | Num _ => []
  | Ref x => [x]
  | GetAtt x _ => [x]
  | Cat a b => (refs a ++ refs b)%list
  end.

Fixpoint pattern_tokens (p : events.Pattern) : list Token :=
  match p with
  | events.PValues vs => vs
  | events.PObject fields =>
      (fix all (fs : list (string * events.Pattern)) : list Token :=
         match fs with
         | [] => []
         | (_, q) :: fs' => (pattern_tokens q ++ all fs')%list
         end) fields
  end.

(** Every expression that stands in a construct. *)
Definition tokens_of (c : Construct) : list Token :=
  match c with
  | CParameter _ | CBucket _ | CDeployment _ | CStage _ => []
  | CTopic t =>
      sns.displayName t
      :: map (fun sub => match sub with sns.EmailSubscription a => a end)
             (sns.subscriptions t)
  | CFunction f =>
      (map snd (lambda.env f)
       ++ flat_map iam.resources (lambda.rolePolicy f)
       ++ map (fun ip => lambda.sourceArn (snd ip)) (lambda.permissions f))%list
  | CRule r =>
      (events.description (events.props r)
       :: match events.schedule (events.props r) with
          | Some (Rate d) => [amount d]
          | None => []
          end
       ++ match events.eventPattern (events.props r) with
          | Some ep => match events.detail ep with
                       | Some d => pattern_tokens d
                       | None => []
                       end
          | None => []
          end
       ++ flat_map (fun t => match events.event t with
                             | Some e => [e] | None => [] end)
                   (events.targets r))%list
  | CRestApi a =>
      [apigateway.restApiName (apigateway.props a);
       apigateway.description (apigateway.props a)]
  | COutput o => [value o]
  end.

Definition pseudo_parameter (x : string) : bool :=
  existsb (String.eqb x)
          ["AWS::StackName"; "AWS::StackId"; "AWS::Region"; "AWS::AccountId"].

Definition declared (s : Stack) (x : string) : bool :=
  match find s x with Some _ => true | None => false end.

(** Every reference in an expression of the stack is to a pseudo
    parameter or to a construct of the stack. *)
Definition references_declared (s : Stack) : bool :=
  forallb (fun kc =>
             forallb (fun t =>
                        forallb (fun x => pseudo_parameter x || declared s x)
                                (refs t))
                     (tokens_of (snd kc)))
          (children s).

Definition is_function (s : Stack) (id : string) : bool :=
  match find_function s id with Some _ => true | None => false end.

(** The handles a construct holds lead to constructs of the right kind:
    targets of rules and integrations of methods to functions, a stage to
    a deployment, a deployment to an API. *)
Definition handles_of_kind (s : Stack) (c : Construct) : bool :=
  match c with
  | CRule r => forallb (fun t => is_function s (events.handler t))
                       (events.targets r)
  | CRestApi a =>
      forallb (fun m => match apigateway.integration m with
                        | apigateway.LambdaIntegration fn _ => is_function s fn
                        | apigateway.MockIntegration => true
                        end)
              (apigateway.methods a)
  | CStage st =>
      match find_deployment s (apigateway.deployment st) with
      | Some _ => true | None => false end
  | CDeployment d =>
      match find_api s (apigateway.api d) with
      | Some _ => true | None => false end
  | _ => true
  end.

Definition handles_resolve (s : Stack) : bool :=
  forallb (fun kc => handles_of_kind s (snd kc)) (children s).

Fixpoint distinct (l : list string) : bool :=
  match l with
  | [] => true
  | x :: l' => negb (existsb (String.eqb x) l') && distinct l'
  end.

(** *** The Internet address of the management API *)

(** [invokeUrl] of the constructor, under stage [stage]. *)
Definition invoke_url (api stage : string) : Token :=
  (Lit "https://" +# restApiId api +# Lit ".execute-api."
   +# Aws.REGION +# Lit (".amazonaws.com.cn/" ++ stage))%tok.

Definition find_bucket s id : option s3.Bucket :=
  match find s id with Some (CBucket b) => Some b | _ => None end.

(** *** More sample requests *)

(** A request with a renew interval of one day, the least the parameter
    accepts. *)
Definition one_day_instance : Instance :=
  with_parameter "renewIntervalDays" (PNum 1%Q) sample_instance.

(** A request that leaves out the email address. *)
Definition no_email_instance : Instance :=
  mkInstance sample_stack_id "ssl-plugin" "cn-north-1" "123456789012"
             [("domainName", PStr "www.example.cn")].

(* ===================================================================== *)
(** ** Facts about patterns *)
(* ===================================================================== *)

Section RepFacts.
Import Regex.

Lemma rep_sound a k : forall s min max prev,
  rep a k min max prev s = true ->
  exists w s', s = (w ++ s')%list
               /\ forallb (atom_accepts a) w = true
               /\ min <= List.length w /\ within max (List.length w)
               /\ k (last_char prev w) s' = true.
Proof.
  induction s as [|c s IH]; intros min max prev H; simpl in H.
  - rewrite andb_false_r, orb_false_r in H.
    apply andb_true_iff in H as [Hm Hk]. apply Nat.eqb_eq in Hm.
    exists [], []. simpl. repeat split; try lia; auto.
    destruct max; simpl; lia.
  - apply orb_true_iff in H as [H|H].
    + apply andb_true_iff in H as [Hm Hk]. apply Nat.eqb_eq in Hm.
      exists [], (c :: s). simpl. repeat split; try lia; auto.
      destruct max; simpl; lia.
    + apply andb_true_iff in H as [Hmay H].
      apply andb_true_iff in H as [Hc H].
      apply IH in H as (w & s' & -> & Hall & Hmin & Hmax & Hk).
      exists (c :: w), s'. simpl. rewrite Hc, Hall.
      repeat split; auto; try lia.
      destruct max as [[|n]|]; simpl in *; try discriminate; lia.
Qed.

Lemma rep_complete a k : forall w s' min max prev,
  forallb (atom_accepts a) w = true ->
  min <= List.length w -> within max (List.length w) ->
  k (last_char prev w) s' = true ->
  rep a k min max prev (w ++ s') = true.
Proof.
  induction w as [|c w IH]; intros s' min max prev Hall Hmin Hmax Hk.
  - simpl in *. assert (min = 0) as -> by lia.
    destruct s'; simpl; rewrite Hk; reflexivity.
  - simpl in Hall. apply andb_true_iff in Hall as [Hc Hall].
    simpl. apply orb_true_iff. right.
    rewrite Hc. simpl.
    rewrite (IH s' (pred min) (option_map pred max) (Some c)); auto.
    + destruct max as [[|n]|]; simpl in *; try reflexivity; lia.
    + simpl in Hmin. lia.
    + destruct max as [n|]; simpl in *; auto. lia.
Qed.

Lemma letter_is_word c : letter c = true -> is_word c = true.
Proof.
  unfold letter, is_word. intros H.
  apply orb_true_iff in H as [-> | ->]; simpl;
    rewrite ?orb_true_r; reflexivity.
Qed.

Lemma last_char_nonempty P prev c w :
  forallb P (c :: w) = true ->
  exists x, last_char prev (c :: w) = Some x /\ P x = true.
Proof.
  revert prev c. induction w as [|d w IH]; intros prev c H.
  - simpl in *. exists c. rewrite andb_true_r in H. auto.
  - simpl in H. apply andb_true_iff in H as [_ H].
    destruct (IH (Some c) d H) as (x & Hx & Px).
    exists x. split; auto.
Qed.
End RepFacts.

Section EmailPattern.
Import Regex.

Lemma parse_email_pattern : parse email_pattern_text = Some email_regex.
Proof. vm_compute. reflexivity. Qed.

Lemma match_from_set items m mx r prev s :
  match_from (mkPiece (ASet items) m mx :: r) prev s
  = rep (ASet items) (match_from r) m mx prev s.
Proof. reflexivity. Qed.

Lemma match_from_bound m mx r prev s :
  match_from (mkPiece ABound m mx :: r) prev s
  = at_boundary prev s && match_from r prev s.
Proof. reflexivity. Qed.

Lemma local_class c :
  atom_accepts (ASet [CWord; CChar "."; CChar "%"; CChar "+"; CChar "-"]) c
  = local_char c.
Proof.
  unfold local_char. simpl. rewrite orb_false_r, !orb_assoc. reflexivity.
Qed.

Lemma domain_class c :
  atom_accepts (ASet [CWord; CChar "."; CChar "-"]) c = domain_char c.
Proof.
  unfold domain_char. simpl. rewrite orb_false_r, !orb_assoc. reflexivity.
Qed.

Lemma letter_class c :
  atom_accepts (ASet [CRange "a" "z"; CRange "A" "Z"]) c = letter c.
Proof. unfold letter. simpl. rewrite orb_false_r. reflexivity. Qed.

Lemma single_class x w :
  forallb (atom_accepts (ASet [CChar x])) w = true ->
  1 <= List.length w -> List.length w <= 1 -> w = [x].
Proof.
  destruct w as [|c [|d w]]; simpl; intros H H1 H2; try lia.
  rewrite orb_false_r, andb_true_r in H.
  apply Ascii.eqb_eq in H. now subst.
Qed.

Lemma forallb_same {A} (f g : A -> bool) l :
  (forall x, f x = g x) -> forallb f l = forallb g l.
Proof. intros E. induction l; simpl; congruence. Qed.

Lemma email_regex_sound s :
  full_match email_regex s = true -> email_shape s.
Proof.
  unfold full_match, email_regex, email_shape.
  generalize (list_ascii_of_string s) as cs. intros cs H.
  rewrite match_from_bound in H. apply andb_true_iff in H as [Hb H].
  rewrite match_from_set in H.
  apply rep_sound in H as (w1 & s1 & E1 & A1 & Min1 & _ & H).
  rewrite match_from_set in H.
  apply rep_sound in H as (w2 & s2 & E2 & A2 & Min2 & Max2 & H).
  rewrite match_from_set in H.
  apply rep_sound in H as (w3 & s3 & E3 & A3 & Min3 & _ & H).
  rewrite match_from_set in H.
  apply rep_sound in H as (w4 & s4 & E4 & A4 & Min4 & Max4 & H).
  rewrite match_from_set in H.
  apply rep_sound in H as (w5 & s5 & E5 & A5 & Min5 & Max5 & H).
  rewrite match_from_bound in H. apply andb_true_iff in H as [_ H].
  simpl in H. destruct s5; [|discriminate].
  apply single_class in A2; auto. apply single_class in A4; auto.
  subst w2 w4 s4 s3 s2 s1.
  rewrite (forallb_same _ _ _ local_class) in A1.
  rewrite (forallb_same _ _ _ domain_class) in A3.
  rewrite (forallb_same _ _ _ letter_class) in A5.
  destruct w1 as [|c l]; [simpl in Min1; lia|].
  subst cs. simpl in Hb. simpl in A1.
  apply andb_true_iff in A1 as [_ A1].
  exists c, l, w3, w5. rewrite app_nil_r.
  repeat split; auto.
  intros ->. simpl in Min3. lia.
Qed.

Lemma email_regex_complete s :
  email_shape s -> full_match email_regex s = true.
Proof.
  intros (c & l & d & t & E & Hc & Hl & Hd & Hdom & [Ht2 Ht6] & Hlet).
  unfold full_match, email_regex. rewrite E.
  rewrite match_from_bound. apply andb_true_iff. split; [exact Hc|].
  rewrite match_from_set. apply rep_complete.
  { rewrite (forallb_same _ _ _ local_class).
    cbn [forallb]. unfold local_char at 1. rewrite Hc. exact Hl. }
  { cbn [List.length]. lia. }
  { exact I. }
  rewrite match_from_set.
  apply (rep_complete _ _ ["@"%char] (d ++ "."%char :: t));
    [reflexivity | cbn; lia | cbn; lia |].
  rewrite match_from_set. apply rep_complete.
  { rewrite (forallb_same _ _ _ domain_class). exact Hdom. }
  { destruct d; [congruence | cbn [List.length]; lia]. }
  { exact I. }
  rewrite match_from_set.
  apply (rep_complete _ _ ["."%char] t);
    [reflexivity | cbn; lia | cbn; lia |].
  rewrite match_from_set. rewrite <- (app_nil_r t) at 1.
  apply rep_complete.
  { rewrite (forallb_same _ _ _ letter_class). exact Hlet. }
  { exact Ht2. }
  { exact Ht6. }
  rewrite match_from_bound. apply andb_true_iff. split; [|reflexivity].
  destruct t as [|x t]; [simpl in Ht2; lia|].
  destruct (last_char_nonempty letter
              (last_char (last_char (last_char (last_char None (c :: l))
                 ["@"%char]) d) ["."%char]) x t Hlet) as (y & Ey & Hy).
  rewrite Ey. unfold at_boundary. cbn [word_opt hd_error].
  rewrite (letter_is_word _ Hy). reflexivity.
Qed.

Lemma email_pattern_spec s :
  pattern_accepts email_pattern_text s = true <-> email_shape s.
Proof.
  unfold pattern_accepts. rewrite parse_email_pattern.
  split; [apply email_regex_sound | apply email_regex_complete].
Qed.
End EmailPattern.

Example email_accepted :
  pattern_accepts email_pattern_text "ops@example.cn" = true.
Proof. reflexivity. Qed.

Example email_leading_dot_rejected :
  pattern_accepts email_pattern_text ".ops@example.cn" = false.
Proof. reflexivity. Qed.

Example email_short_suffix_rejected :
  pattern_accepts email_pattern_text "ops@example.c" = false.
Proof. reflexivity. Qed.

Example domain_list_of_description :
  domain_list_shape "www.example.cn,example.cn,*.example.com" = true.
Proof. reflexivity. Qed.

(* ===================================================================== *)
(** ** Facts about the synthesized stack *)
(* ===================================================================== *)

Lemma parameters_of_stack :
  parameters_of the_stack =
  [("domainName", domainName_props); ("emailAddress", emailAddress_props);
   ("renewIntervalDays", renewIntervalDays_props)].
Proof. vm_compute. reflexivity. Qed.

Lemma find_domainName :
  find_parameter the_stack "domainName" = Some domainName_props.
Proof. vm_compute. reflexivity. Qed.

Lemma find_emailAddress :
  find_parameter the_stack "emailAddress" = Some emailAddress_props.
Proof. vm_compute. reflexivity. Qed.

Lemma find_renewIntervalDays :
  find_parameter the_stack "renewIntervalDays" = Some renewIntervalDays_props.
Proof. vm_compute. reflexivity. Qed.

Lemma rules_of_stack : rules_of the_stack = declared_rules.
Proof. vm_compute. reflexivity. Qed.

Lemma find_certbot_function :
  find_function the_stack "CertBotFunction" = certbot_function.
Proof. vm_compute. reflexivity. Qed.

Lemma Qle_bool_spec (a b : Q) : Qle_bool a b = true <-> (a <= b)%Q.
Proof. apply Qle_bool_iff. Qed.

(** What each declared parameter accepts. *)
Ltac unfold_accepts p :=
  unfold param_accepts, p;
  cbn [type minLength maxLength allowedPattern minValue maxValue opt_holds].

Lemma domainName_accepts v :
  param_accepts domainName_props v = true
  <-> exists s, v = PStr s /\ 1 <= String.length s.
Proof.
  unfold_accepts domainName_props. destruct v as [s|q].
  - rewrite !andb_true_r, Nat.leb_le. split.
    + intros H. exists s. auto.
    + intros (s' & [= <-] & H). exact H.
  - split; [discriminate | intros (s & [=] & _)].
Qed.

Lemma emailAddress_accepts v :
  param_accepts emailAddress_props v = true
  <-> exists s, v = PStr s /\ email_shape s.
Proof.
  unfold_accepts emailAddress_props. destruct v as [s|q].
  - rewrite andb_true_r, andb_true_iff, Nat.leb_le.
    rewrite email_pattern_spec. split.
    + intros [_ H]. exists s. auto.
    + intros (s' & [= <-] & H). split; auto.
      destruct H as (c & l & d & t & E & _).
      rewrite <- (string_of_list_ascii_of_string s), E. cbn. lia.
  - split; [discriminate | intros (s & [=] & _)].
Qed.

Lemma renewIntervalDays_accepts v :
  param_accepts renewIntervalDays_props v = true
  <-> exists q, v = PNum q /\ (1 <= q <= 89)%Q.
Proof.
  unfold_accepts renewIntervalDays_props. destruct v as [s|q].
  - split; [discriminate | intros (s' & [=] & _)].
  - rewrite andb_true_iff, !Qle_bool_spec. split.
    + intros H. exists q. auto.
    + intros (q' & [= <-] & H). exact H.
Qed.

(** The stack is created exactly for the requests whose three values are
    accepted. *)
Lemma accepted_spec i vals :
  accepted_parameters the_stack i = Some vals
  <-> exists d e v,
        vals = configuration d e v
        /\ requested the_stack i "domainName" = Some (PStr d)
        /\ requested the_stack i "emailAddress" = Some (PStr e)
        /\ requested the_stack i "renewIntervalDays" = Some (PNum v)
        /\ 1 <= String.length d /\ email_shape e /\ (1 <= v <= 89)%Q.
Proof.
  unfold accepted_parameters, requested.
  rewrite parameters_of_stack, find_domainName, find_emailAddress,
    find_renewIntervalDays.
  cbn [check_parameters].
  destruct (chosen domainName_props _) as [v1|];
    [|split; [discriminate | intros (d & e & v & _ & [=] & _)]].
  destruct (param_accepts domainName_props v1) eqn:A1.
  2:{ split; [discriminate|]. intros (d & e & v & _ & [= ->] & _ & _ & H & _).
      assert (param_accepts domainName_props (PStr d) = true)
        by (apply domainName_accepts; eauto). congruence. }
  apply domainName_accepts in A1 as (d & -> & Hd).
  destruct (chosen emailAddress_props _) as [v2|];
    [|split; [discriminate | intros (d' & e & v & _ & _ & [=] & _)]].
  destruct (param_accepts emailAddress_props v2) eqn:A2.
  2:{ split; [discriminate|].
      intros (d' & e & v & _ & _ & [= ->] & _ & _ & H & _).
      assert (param_accepts emailAddress_props (PStr e) = true)
        by (apply emailAddress_accepts; eauto). congruence. }
  apply emailAddress_accepts in A2 as (e & -> & He).
  destruct (chosen renewIntervalDays_props _) as [v3|];
    [|split; [discriminate | intros (d' & e' & v & _ & _ & _ & [=] & _)]].
  destruct (param_accepts renewIntervalDays_props v3) eqn:A3.
  2:{ split; [discriminate|].
      intros (d' & e' & v & _ & _ & _ & [= ->] & _ & _ & H).
      assert (param_accepts renewIntervalDays_props (PNum v) = true)
        by (apply renewIntervalDays_accepts; eauto). congruence. }
  apply renewIntervalDays_accepts in A3 as (v & -> & Hv).
  split.
  - intros [= <-]. exists d, e, v. repeat split; auto; apply Hv.
  - intros (d' & e' & v' & -> & [= <-] & [= <-] & [= <-] & _). reflexivity.
Qed.

(** The pattern of the rule on stack events, as a test on the event. *)
Lemma lifecycle_pattern_spec i vals ev :
  pattern_matches (resolve i vals)
    (render_pattern
       {| events.source := Some ["aws.cloudformation"];
          events.detailType := Some ["CloudFormation Stack Status Change"];
          events.detail := Some (events.PObject [
            ("stack-id", events.PValues [Aws.STACK_ID]);
            ("status-details", events.PObject [
              ("status", events.PValues [Lit "CREATE_COMPLETE";
                                         Lit "UPDATE_COMPLETE"])])]) |})
    ev
  = completes_create_or_update i ev.
Proof.
  unfold completes_create_or_update, completes, text_is, text_at.
  destruct ev as [s|fields]; [reflexivity|].
  cbn -[String.eqb resolve].
  change (resolve i vals "AWS::StackId") with (Some (Lit (stackId i))).
  repeat match goal with
         | |- context [lookup ?k ?f] => destruct (lookup k f) as [[?|?]|]
         end;
    cbn -[String.eqb];
    rewrite ?orb_false_r, ?andb_true_r, ?andb_false_r; try reflexivity;
    repeat match goal with
           | |- context [String.eqb ?a ?b] => destruct (String.eqb a b)
           end;
    reflexivity.
Qed.

(** The runs of an instance that CloudFormation created. *)
Lemma on_event_accepted i d e v ev :
  accepted_parameters the_stack i = Some (configuration d e v) ->
  on_event the_stack i ev
  = if completes_create_or_update i ev
    then [certbot_run "CertCfnCreatedRule" i d e] else [].
Proof.
  intros H. unfold on_event. rewrite H, rules_of_stack.
  unfold declared_rules. cbn [flat_map fst snd].
  unfold rule_matches at 1.
  cbn [events.enabled events.props events.eventPattern andb].
  rewrite lifecycle_pattern_spec.
  unfold invoke. cbn [events.targets events.handler flat_map].
  rewrite find_certbot_function.
  destruct (completes_create_or_update i ev); reflexivity.
Qed.

(** The expression for a number of days. *)
Lemma rate_period_days v :
  rate_period (Lit "rate(" +# Num v +# Lit " days)")%tok
  = if schedulable v then Some (v * 86400)%Q else None.
Proof.
  unfold rate_period, schedulable.
  change (lookup " days)" rate_units) with (Some (false, 86400%Q)).
  destruct (whole_number v) as [n|]; [|reflexivity].
  destruct (Z.ltb_spec 0 n), (Z.eqb_spec n 1), (Z.ltb_spec 1 n);
    cbn [andb Bool.eqb]; try reflexivity; lia.
Qed.

Lemma period_seconds_days v :
  period_seconds (Rate (DurationOps.days (Num v)))
  = if schedulable v then Some (v * 86400)%Q else None.
Proof. exact (rate_period_days v). Qed.

Lemma on_schedule_accepted i d e v :
  accepted_parameters the_stack i = Some (configuration d e v) ->
  on_schedule the_stack i
  = if schedulable v
    then [(Rate (mkDuration (Num v) Days),
           certbot_run "CertScheduledRule" i d e)]
    else [].
Proof.
  intros H. unfold on_schedule. rewrite H, rules_of_stack.
  unfold declared_rules. cbn [flat_map fst snd].
  cbn [events.schedule events.props events.enabled].
  change (subst (resolve i (configuration d e v))
                (expressionString
                   (Rate {| amount := Ref "renewIntervalDays";
                            timeUnit := Days |})))
    with (Lit "rate(" +# Num v +# Lit " days)")%tok.
  rewrite rate_period_days.
  unfold invoke. cbn [events.targets events.handler flat_map].
  rewrite find_certbot_function.
  destruct (schedulable v); reflexivity.
Qed.

Lemma on_schedule_whole i d e v :
  accepted_parameters the_stack i = Some (configuration d e v) ->
  schedulable v = true ->
  on_schedule the_stack i
  = [(Rate (mkDuration (Num v) Days), certbot_run "CertScheduledRule" i d e)].
Proof.
  intros H Hv. rewrite (on_schedule_accepted i d e v H), Hv. reflexivity.
Qed.

Lemma on_event_rejected i ev :
  accepted_parameters the_stack i = None -> on_event the_stack i ev = [].
Proof. intros H. unfold on_event. now rewrite H. Qed.

Lemma on_schedule_rejected i :
  accepted_parameters the_stack i = None -> on_schedule the_stack i = [].
Proof. intros H. unfold on_schedule. now rewrite H. Qed.

Lemma accepted_sample :
  accepted_parameters the_stack sample_instance
  = Some (configuration "www.example.cn,*.example.cn" "ops@example.cn" 30%Q).
Proof. vm_compute. reflexivity. Qed.

Lemma accepted_comma :
  accepted_parameters the_stack comma_instance
  = Some (configuration "," "ops@example.cn" 80%Q).
Proof. vm_compute. reflexivity. Qed.

Lemma rejected_late : accepted_parameters the_stack late_instance = None.
Proof. vm_compute. reflexivity. Qed.

(** Setting the renew interval leaves the other requested values. *)
Lemma requested_with_interval i v' :
  requested the_stack (with_parameter "renewIntervalDays" (PNum v') i)
            "domainName" = requested the_stack i "domainName"
  /\ requested the_stack (with_parameter "renewIntervalDays" (PNum v') i)
               "emailAddress" = requested the_stack i "emailAddress"
  /\ requested the_stack (with_parameter "renewIntervalDays" (PNum v') i)
               "renewIntervalDays" = Some (PNum v').
Proof.
  unfold requested.
  rewrite find_domainName, find_emailAddress, find_renewIntervalDays.
  repeat split.
Qed.

Lemma accepted_with_interval i d e v v' :
  accepted_parameters the_stack i = Some (configuration d e v) ->
  (1 <= v' <= 89)%Q ->
  accepted_parameters the_stack
    (with_parameter "renewIntervalDays" (PNum v') i)
  = Some (configuration d e v').
Proof.
  intros H Hv'.
  apply accepted_spec in H
    as (d0 & e0 & v0 & [= <- <- <-] & Rd & Re & _ & Hd & He & _).
  destruct (requested_with_interval i v') as (Rd' & Re' & Rv').
  apply accepted_spec. exists d, e, v'.
  rewrite Rd', Re', Rv'. repeat split; auto; apply Hv'.
Qed.

Lemma in_runs_accepted i d e v ev run :
  accepted_parameters the_stack i = Some (configuration d e v) ->
  In run (runs the_stack i ev) ->
  run = certbot_run "CertCfnCreatedRule" i d e
  \/ run = certbot_run "CertScheduledRule" i d e.
Proof.
  intros H. unfold runs.
  rewrite (on_event_accepted i d e v ev H), (on_schedule_accepted i d e v H).
  destruct (completes_create_or_update i ev), (schedulable v); cbn; intuition.
Qed.

Lemma runs_rejected i ev :
  accepted_parameters the_stack i = None -> runs the_stack i ev = [].
Proof.
  intros H. unfold runs.
  rewrite (on_event_rejected i ev H), (on_schedule_rejected i H). reflexivity.
Qed.

(** *** Wildcards *)

Lemma glob_star s : glob ["*"%char] s = true.
Proof.
  induction s as [|c s IH]; [reflexivity|].
  cbn [glob] in *. rewrite IH. reflexivity.
Qed.

Lemma glob_plain_cons c p s :
  plain_char c = true ->
  glob (c :: p) s
  = match s with [] => false | d :: s' => Ascii.eqb c d && glob p s' end.
Proof.
  intros H.
  destruct c as [[] [] [] [] [] [] [] []]; try reflexivity; discriminate H.
Qed.

(** A pattern without wildcards matches itself only. *)
Lemma glob_plain p : forall s,
  forallb plain_char p = true -> glob p s = true -> s = p.
Proof.
  induction p as [|c p IH]; intros s Hp H.
  - destruct s; [reflexivity | discriminate H].
  - cbn [forallb] in Hp. apply andb_true_iff in Hp as [Hc Hp].
    rewrite (glob_plain_cons c p s Hc) in H.
    destruct s as [|d s]; [discriminate H|].
    apply andb_true_iff in H as [Hd H]. apply Ascii.eqb_eq in Hd.
    rewrite (IH s Hp H), Hd. reflexivity.
Qed.

Lemma role_policy_list :
  role_policy the_stack "ListCertFunction"
  = [ {| iam.resources := [Lit "*"];
         iam.actions := ["iam:ListServerCertificates"];
         iam.effect := iam.ALLOW |} ].
Proof. vm_compute. reflexivity. Qed.

Lemma role_policy_delete :
  role_policy the_stack "DeleteCertFunction"
  = [ {| iam.resources := [Lit "*"];
         iam.actions := ["iam:DeleteServerCertificate"];
         iam.effect := iam.ALLOW |} ].
Proof. vm_compute. reflexivity. Qed.

Lemma action_matches_glob a b :
  action_matches a b = glob (lowercase a) (lowercase b).
Proof. reflexivity. Qed.

Lemma list_action_plain :
  forallb plain_char (lowercase "iam:ListServerCertificates") = true.
Proof. vm_compute. reflexivity. Qed.

(** A policy of one statement that allows one action. *)
Lemma policy_allows_one rho ress a action arn :
  policy_allows rho [ {| iam.resources := ress; iam.actions := [a];
                         iam.effect := iam.ALLOW |} ] action arn
  = action_matches a action
    && existsb (fun r => resource_matches rho r arn) ress.
Proof.
  unfold policy_allows, statement_applies.
  cbn [existsb is_allow iam.effect iam.actions iam.resources andb orb negb].
  rewrite !orb_false_r, andb_true_r. reflexivity.
Qed.

(* ===================================================================== *)
(** ** Properties of the stack *)
(* ===================================================================== *)

(** C1, as stated, fails: the runs of the sample request, whose renew
    interval is 30 days, are not given the number 30; they are the same
    runs as with an interval of 60 days. *)
Lemma renew_interval_not_passed :
  ~ runs_given_renew_interval
  /\ runs the_stack sample_instance created_event
     = runs the_stack
         (with_parameter "renewIntervalDays" (PNum 60%Q) sample_instance)
         created_event
  /\ List.length (runs the_stack sample_instance created_event) = 2.
Proof.
  split; [|split; vm_compute; reflexivity].
  intros Hall.
  specialize (Hall sample_instance _ _ _ created_event
                (certbot_run "CertScheduledRule" sample_instance
                   "www.example.cn,*.example.cn" "ops@example.cn")
                accepted_sample).
  assert (Hin : In (certbot_run "CertScheduledRule" sample_instance
                      "www.example.cn,*.example.cn" "ops@example.cn")
                   (runs the_stack sample_instance created_event)).
  { unfold runs.
    rewrite (on_schedule_whole _ _ _ _ accepted_sample eq_refl).
    apply in_or_app. right. left. reflexivity. }
  specialize (Hall Hin). clear Hin. vm_compute in Hall. discriminate Hall.
Qed.

(** C1, amended: the issuing function is run by the rule on stack events,
    once for each event that completes a creation or an update of the
    stack, and by the scheduled rule when its rate expression is accepted
    (a whole number of days greater than 1).  Every run has the domain
    list and the email address of the request in its environment and the
    event that started it as input; no number stands in the environment
    or the input.  The renew interval is not passed on: with another
    interval the events start the same runs and the scheduler the same
    run, and only the rate of the schedule is another. *)
Theorem runs_given_domains_and_email (i : Instance) (d e : string) (v : Q)
  (Hacc : accepted_parameters the_stack i = Some (configuration d e v)) :
  (forall ev,
     on_event the_stack i ev
     = if completes_create_or_update i ev
       then [certbot_run "CertCfnCreatedRule" i d e] else [])
  /\ on_schedule the_stack i
     = (if schedulable v
        then [(Rate (DurationOps.days (Num v)),
               certbot_run "CertScheduledRule" i d e)]
        else [])
  /\ (forall ev run, In run (runs the_stack i ev) ->
        function run = "CertBotFunction"
        /\ (by_rule run = "CertCfnCreatedRule"
            \/ by_rule run = "CertScheduledRule")
        /\ lookup "DOMAINS_LIST" (environment run) = Some (Lit d)
        /\ lookup "DOMAINS_EMAIL" (environment run) = Some (Lit e)
        /\ input run = None
        /\ forall q, given_number q run = false)
  /\ (forall v', (1 <= v' <= 89)%Q ->
        (forall ev,
           on_event the_stack
                    (with_parameter "renewIntervalDays" (PNum v') i) ev
           = on_event the_stack i ev)
        /\ on_schedule the_stack
                       (with_parameter "renewIntervalDays" (PNum v') i)
           = (if schedulable v'
              then [(Rate (DurationOps.days (Num v')),
                     certbot_run "CertScheduledRule" i d e)]
              else [])).
Proof.
  split; [|split; [|split]].
  - intros ev. exact (on_event_accepted i d e v ev Hacc).
  - exact (on_schedule_accepted i d e v Hacc).
  - intros ev run Hin.
    destruct (in_runs_accepted i d e v ev run Hacc Hin) as [-> | ->].
    + split; [reflexivity|]. split; [left; reflexivity|].
      repeat split; reflexivity.
    + split; [reflexivity|]. split; [right; reflexivity|].
      repeat split; reflexivity.
  - intros v' Hv'.
    pose proof (accepted_with_interval i d e v v' Hacc Hv') as Hacc'.
    split.
    + intros ev.
      rewrite (on_event_accepted _ _ _ _ ev Hacc).
      rewrite (on_event_accepted _ _ _ _ ev Hacc').
      reflexivity.
    + rewrite (on_schedule_accepted _ _ _ _ Hacc'). reflexivity.
Qed.

(** The amended C1 at the sample request: the event that reports its
    creation starts a run, and the scheduler starts a run every 30 days. *)
Lemma runs_given_domains_and_email_witness :
  on_event the_stack sample_instance created_event
  = [certbot_run "CertCfnCreatedRule" sample_instance
       "www.example.cn,*.example.cn" "ops@example.cn"]
  /\ on_schedule the_stack sample_instance
     = [(Rate (DurationOps.days (Num 30%Q)),
         certbot_run "CertScheduledRule" sample_instance
           "www.example.cn,*.example.cn" "ops@example.cn")].
Proof.
  split.
  - exact (proj1 (runs_given_domains_and_email sample_instance _ _ _
                    accepted_sample) created_event).
  - exact (proj1 (proj2 (runs_given_domains_and_email sample_instance _ _ _
                           accepted_sample))).
Defined.

(** C2: the declaration of [renewIntervalDays] accepts exactly the numbers
    from 1 to 89, bounds included; a request with a number outside this
    range is refused when the stack is created, so that no run is ever
    started for it. *)
Theorem renew_interval_range (v : Q) :
  (parameter_accepts the_stack "renewIntervalDays" (PNum v) = true
   <-> (1 <= v <= 89)%Q)
  /\ (forall i,
        requested the_stack i "renewIntervalDays" = Some (PNum v) ->
        (accepted_parameters the_stack i <> None -> (1 <= v <= 89)%Q)
        /\ (~ (1 <= v <= 89)%Q ->
            accepted_parameters the_stack i = None
            /\ (forall ev, on_event the_stack i ev = [])
            /\ on_schedule the_stack i = [])).
Proof.
  split.
  - unfold parameter_accepts. rewrite find_renewIntervalDays.
    rewrite renewIntervalDays_accepts. split.
    + intros (q & [= <-] & H). exact H.
    + intros H. exists v. auto.
  - intros i Hreq.
    assert (Hin : accepted_parameters the_stack i <> None -> (1 <= v <= 89)%Q).
    { destruct (accepted_parameters the_stack i) as [vals|] eqn:Hacc;
        [intros _ | congruence].
      apply accepted_spec in Hacc
        as (d & e & v0 & _ & _ & _ & Hv0 & _ & _ & Hrange).
      rewrite Hreq in Hv0. injection Hv0 as <-. exact Hrange. }
    split; [exact Hin|].
    intros Hout.
    assert (Hrej : accepted_parameters the_stack i = None).
    { destruct (accepted_parameters the_stack i) eqn:Hacc; [|reflexivity].
      exfalso. apply Hout, Hin. discriminate. }
    repeat split.
    + exact Hrej.
    + intros ev. apply on_event_rejected, Hrej.
    + apply on_schedule_rejected, Hrej.
Qed.

(** C2 at the sample request (30 days, accepted) and at the request with
    90 days (refused, no run). *)
Lemma renew_interval_range_witness :
  (1 <= 30 <= 89)%Q
  /\ accepted_parameters the_stack late_instance = None
  /\ (forall ev, on_event the_stack late_instance ev = [])
  /\ on_schedule the_stack late_instance = [].
Proof.
  split.
  - apply (proj2 (renew_interval_range 30%Q) sample_instance).
    + reflexivity.
    + rewrite accepted_sample. discriminate.
  - apply (proj2 (renew_interval_range 90%Q) late_instance).
    + reflexivity.
    + intros [_ H]. apply H. reflexivity.
Defined.

(** C3, as stated, fails: for the sample request the rule on stack events
    also starts a run when an update of the stack completes, and it starts
    two runs over a creation followed by an update. *)
Lemma lifecycle_rule_fires_on_update :
  ~ fires_once_on_creation
  /\ firings the_stack sample_instance "CertCfnCreatedRule" [updated_event]
     <> []
  /\ completes "CREATE_COMPLETE" sample_instance updated_event = false
  /\ List.length (firings the_stack sample_instance "CertCfnCreatedRule"
                          [created_event; updated_event]) = 2.
Proof.
  assert (Hfire : firings the_stack sample_instance "CertCfnCreatedRule"
                          [updated_event] <> []).
  { vm_compute. discriminate. }
  assert (Hnot : completes "CREATE_COMPLETE" sample_instance updated_event
                 = false) by (vm_compute; reflexivity).
  split; [|split; [exact Hfire | split; [exact Hnot |]]].
  - intros Hall.
    destruct (Hall sample_instance _ _ _ accepted_sample) as [Honly _].
    specialize (Honly updated_event Hfire). congruence.
  - vm_compute. reflexivity.
Qed.

(** C3, amended: over any sequence of events, the rule on stack events
    starts one run of the issuing function for each event that reports
    this stack in status [CREATE_COMPLETE] or [UPDATE_COMPLETE], and none
    for any other event: it fires after the creation of the stack and
    again after every completed update. *)
Theorem lifecycle_rule_firings (i : Instance) (d e : string) (v : Q)
  (Hacc : accepted_parameters the_stack i = Some (configuration d e v))
  (trace : list Json) :
  firings the_stack i "CertCfnCreatedRule" trace
  = map (fun _ => certbot_run "CertCfnCreatedRule" i d e)
        (filter (completes_create_or_update i) trace)
  /\ forall stack_id status,
       completes_create_or_update i (stack_status_change stack_id status)
       = true
       <-> stack_id = stackId i
           /\ (status = "CREATE_COMPLETE" \/ status = "UPDATE_COMPLETE").
Proof.
  split.
  - unfold firings. induction trace as [|ev trace IH]; [reflexivity|].
    cbn [flat_map filter]. rewrite filter_app, IH.
    rewrite (on_event_accepted i d e v ev Hacc).
    destruct (completes_create_or_update i ev); reflexivity.
  - intros sid st.
    unfold completes_create_or_update, completes, text_is.
    change (text_at ["source"] (stack_status_change sid st))
      with (Some "aws.cloudformation").
    change (text_at ["detail-type"] (stack_status_change sid st))
      with (Some "CloudFormation Stack Status Change").
    change (text_at ["detail"; "stack-id"] (stack_status_change sid st))
      with (Some sid).
    change (text_at ["detail"; "status-details"; "status"]
                    (stack_status_change sid st))
      with (Some st).
    cbv beta iota. rewrite !String.eqb_refl. cbn [andb].
    rewrite orb_true_iff, !andb_true_iff, !String.eqb_eq.
    intuition congruence.
Qed.

(** The amended C3 at the sample request, over a creation followed by an
    update. *)
Lemma lifecycle_rule_firings_witness :
  firings the_stack sample_instance "CertCfnCreatedRule"
          [created_event; updated_event]
  = map (fun _ => certbot_run "CertCfnCreatedRule" sample_instance
                    "www.example.cn,*.example.cn" "ops@example.cn")
        (filter (completes_create_or_update sample_instance)
                [created_event; updated_event]).
Proof.
  exact (proj1 (lifecycle_rule_firings sample_instance _ _ _ accepted_sample
                  [created_event; updated_event])).
Defined.

Lemma accepted_one_day :
  accepted_parameters the_stack one_day_instance
  = Some (configuration "www.example.cn,*.example.cn" "ops@example.cn" 1%Q).
Proof. vm_compute. reflexivity. Qed.

Lemma find_scheduled_rule :
  option_map (fun r => (events.schedule (events.props r),
                        events.enabled (events.props r),
                        events.targets r))
             (find_rule the_stack "CertScheduledRule")
  = Some (Some (Rate (DurationOps.days (valueAsNumber "renewIntervalDays"))),
          true, [events.mkTarget "CertBotFunction" None]).
Proof. vm_compute. reflexivity. Qed.

(** C4 at a renew interval of one day, which the parameter accepts: the
    schedule of the scheduled rule is a rate of the parameter's number of
    days, and its expression for one day is [rate(1 days)], with the unit
    in the plural, which the scheduler refuses ([rate(1 day)] it would
    accept, with a period of 86400 seconds); the scheduler starts no
    run. *)
Theorem schedule_refused_for_one_day :
  accepted_parameters the_stack one_day_instance
  = Some (configuration "www.example.cn,*.example.cn" "ops@example.cn" 1%Q)
  /\ (exists r,
        find_rule the_stack "CertScheduledRule" = Some r
        /\ events.schedule (events.props r)
           = Some (Rate (DurationOps.days (valueAsNumber "renewIntervalDays")))
        /\ option_map
             (fun sc =>
                subst (resolve one_day_instance
                         (configuration "www.example.cn,*.example.cn"
                                        "ops@example.cn" 1%Q))
                      (expressionString sc))
             (events.schedule (events.props r))
           = Some (Lit "rate(" +# Num 1%Q +# Lit " days)")%tok)
  /\ rate_period (Lit "rate(" +# Num 1%Q +# Lit " days)")%tok = None
  /\ rate_period (Lit "rate(" +# Num 1%Q +# Lit " day)")%tok = Some 86400%Q
  /\ on_schedule the_stack one_day_instance = [].
Proof.
  split; [exact accepted_one_day|]. split; [|split; [|split]].
  - pose proof find_scheduled_rule as H.
    destruct (find_rule the_stack "CertScheduledRule") as [r|];
      [|discriminate H].
    cbn [option_map] in H. injection H as Hs _ _.
    exists r. split; [reflexivity|]. rewrite Hs. split; reflexivity.
  - reflexivity.
  - reflexivity.
  - rewrite (on_schedule_accepted _ _ _ _ accepted_one_day). reflexivity.
Qed.

(** C5: the issuing function is declared with a timeout of 900 seconds,
    which is 15 minutes, and with [MAX_DIST_ITEMS] 200 and
    [DIST_PAGE_SIZE] 20 in its environment; every run, whatever starts
    it, has this time limit and these two variables. *)
Theorem run_deadline_and_pagination_bounds :
  (exists f,
     find_function the_stack "CertBotFunction" = Some f
     /\ lambda.timeout (lambda.props f) = DurationOps.seconds 900%Q
     /\ lookup "MAX_DIST_ITEMS" (lambda.env f) = Some (Lit "200")
     /\ lookup "DIST_PAGE_SIZE" (lambda.env f) = Some (Lit "20"))
  /\ DurationOps.toSeconds (DurationOps.seconds 900%Q)
     = Some (15 * unit_seconds Minutes)%Q
  /\ forall i ev run,
       In run (runs the_stack i ev) ->
       function run = "CertBotFunction"
       /\ DurationOps.toSeconds (time_limit run) = Some 900%Q
       /\ lookup "MAX_DIST_ITEMS" (environment run) = Some (Lit "200")
       /\ lookup "DIST_PAGE_SIZE" (environment run) = Some (Lit "20").
Proof.
  split; [|split].
  - eexists. split; [vm_compute; reflexivity|]. repeat split.
  - reflexivity.
  - intros i ev run Hin.
    destruct (accepted_parameters the_stack i) as [vals|] eqn:Hacc.
    + pose proof Hacc as Hspec.
      apply accepted_spec in Hspec as (d & e & v & -> & _).
      destruct (in_runs_accepted i d e v ev run Hacc Hin) as [-> | ->];
        repeat split.
    + rewrite (runs_rejected i ev Hacc) in Hin. destruct Hin.
Qed.

(** C6: besides the routes of the API explorer and the answers to CORS
    preflight requests, the management API has exactly two routes:
    [POST /delete-ssl-cert] to the function that deletes certificates and
    [GET /list-ssl-cert] to the function that lists them. *)
Theorem management_api_routes :
  management_routes the_stack "SslCertManageAPI" "APIExplorerFunction"
  = [("POST", ["delete-ssl-cert"], "DeleteCertFunction");
     ("GET", ["list-ssl-cert"], "ListCertFunction")]
  /\ routes (api_methods the_stack "SslCertManageAPI")
     = [("ANY", ["api-explorer"; "{proxy+}"], "APIExplorerFunction");
        ("GET", ["api-explorer"], "APIExplorerFunction");
        ("POST", ["delete-ssl-cert"], "DeleteCertFunction");
        ("GET", ["list-ssl-cert"], "ListCertFunction")]
  /\ forallb (fun m => match route_of m with
                       | Some _ => true
                       | None => String.eqb (apigateway.httpMethod m) "OPTIONS"
                       end)
             (api_methods the_stack "SslCertManageAPI") = true
  /\ (exists f, find_function the_stack "DeleteCertFunction" = Some f
                /\ lambda.path (lambda.code (lambda.props f))
                   = "../lambda/ManageCert/DeleteCert")
  /\ (exists f, find_function the_stack "ListCertFunction" = Some f
                /\ lambda.path (lambda.code (lambda.props f))
                   = "../lambda/ManageCert/ListCert").
Proof.
  repeat split; try (vm_compute; reflexivity);
    eexists; (split; [vm_compute; reflexivity | reflexivity]).
Qed.

(** C7: the policy the stack gives the listing function allows one action,
    [iam:ListServerCertificates], which is read-level; whatever the
    resource, the policy allows no request for another action. *)
Theorem list_function_read_only :
  allowed_actions (role_policy the_stack "ListCertFunction")
  = ["iam:ListServerCertificates"]
  /\ forallb read_level
             (allowed_actions (role_policy the_stack "ListCertFunction"))
     = true
  /\ forall rho action arn,
       policy_allows rho (role_policy the_stack "ListCertFunction")
                     action arn = true ->
       lowercase action = lowercase "iam:ListServerCertificates".
Proof.
  rewrite role_policy_list. repeat split.
  intros rho action arn H.
  rewrite policy_allows_one in H. apply andb_true_iff in H as [H _].
  rewrite action_matches_glob in H.
  exact (glob_plain _ _ list_action_plain H).
Qed.

(** C8, as stated, fails: the request whose domain list is a lone comma
    is accepted, and a lone comma separates two empty names. *)
Lemma lone_comma_accepted :
  ~ accepted_values_valid
  /\ accepted_parameters the_stack comma_instance
     = Some (configuration "," "ops@example.cn" 80%Q)
  /\ domain_list_shape "," = false.
Proof.
  split; [|split; [exact accepted_comma | reflexivity]].
  intros Hall.
  destruct (Hall comma_instance _ _ _ accepted_comma) as [Hshape _].
  discriminate Hshape.
Qed.

(** C8, amended: a request is accepted exactly when its domain list is
    not empty, its email address has the shape of the declared pattern and
    its renew interval lies between 1 and 89; what stands in the domain
    list is not checked.  For any other request the stack is not created
    and no run is ever started. *)
Theorem accepted_configuration_checked (i : Instance) (d e : string) (v : Q)
  (Hd : requested the_stack i "domainName" = Some (PStr d))
  (He : requested the_stack i "emailAddress" = Some (PStr e))
  (Hv : requested the_stack i "renewIntervalDays" = Some (PNum v)) :
  (accepted_parameters the_stack i = Some (configuration d e v)
   <-> 1 <= String.length d /\ email_shape e /\ (1 <= v <= 89)%Q)
  /\ (~ (1 <= String.length d /\ email_shape e /\ (1 <= v <= 89)%Q) ->
      accepted_parameters the_stack i = None
      /\ forall ev, runs the_stack i ev = []).
Proof.
  assert (Hvalid : forall vals,
             accepted_parameters the_stack i = Some vals ->
             vals = configuration d e v
             /\ 1 <= String.length d /\ email_shape e /\ (1 <= v <= 89)%Q).
  { intros vals Hacc.
    apply accepted_spec in Hacc
      as (d0 & e0 & v0 & -> & Hd0 & He0 & Hv0 & Hlen & Hshape & Hrange).
    rewrite Hd in Hd0. rewrite He in He0. rewrite Hv in Hv0.
    injection Hd0 as <-. injection He0 as <-. injection Hv0 as <-.
    auto. }
  split; [split|].
  - intros Hacc. apply (Hvalid _ Hacc).
  - intros (Hlen & Hshape & Hrange). apply accepted_spec.
    exists d, e, v. repeat split; auto; apply Hrange.
  - intros Hbad.
    assert (Hrej : accepted_parameters the_stack i = None).
    { destruct (accepted_parameters the_stack i) as [vals|] eqn:Hacc;
        [|reflexivity].
      exfalso. apply Hbad. apply (Hvalid _ eq_refl). }
    split; [exact Hrej|]. intros ev. apply runs_rejected, Hrej.
Qed.

(** The amended C8 at the request with the lone comma (accepted) and at
    the request with 90 days (refused, no run). *)
Lemma accepted_configuration_checked_witness :
  (accepted_parameters the_stack comma_instance
   = Some (configuration "," "ops@example.cn" 80%Q)
   <-> 1 <= String.length "," /\ email_shape "ops@example.cn"
       /\ (1 <= 80 <= 89)%Q)
  /\ (accepted_parameters the_stack late_instance = None
      /\ forall ev, runs the_stack late_instance ev = []).
Proof.
  split.
  - exact (proj1 (accepted_configuration_checked comma_instance
                    "," "ops@example.cn" 80%Q eq_refl eq_refl eq_refl)).
  - apply (proj2 (accepted_configuration_checked late_instance
                    "www.example.cn,*.example.cn" "ops@example.cn" 90%Q
                    eq_refl eq_refl eq_refl)).
    intros (_ & _ & _ & H). apply H. reflexivity.
Defined.

(** C9: the stack adds two permissions, [CertCfnCreatedEventInvokeLambda]
    and [ScheduledEventsInvokeLambda], both on the issuing function for the
    events service and both with the ARN of the rule on stack events as
    source; no permission it adds has the ARN of the scheduled rule as
    source. *)
Theorem explicit_permissions_name_lifecycle_rule :
  explicit_permissions the_stack
  = [("CertBotFunction", "CertCfnCreatedEventInvokeLambda",
      lifecycle_rule_permission);
     ("CertBotFunction", "ScheduledEventsInvokeLambda",
      lifecycle_rule_permission)]
  /\ forallb (fun entry =>
                mentions "CertCfnCreatedRule" (lambda.sourceArn (snd entry))
                && negb (mentions "CertScheduledRule"
                                  (lambda.sourceArn (snd entry))))
             (explicit_permissions the_stack) = true
  /\ (exists r, find_rule the_stack "CertCfnCreatedRule" = Some r
                /\ events.schedule (events.props r) = None)
  /\ (exists r, find_rule the_stack "CertScheduledRule" = Some r
                /\ events.eventPattern (events.props r) = None).
Proof.
  repeat split; try (vm_compute; reflexivity);
    eexists; (split; [vm_compute; reflexivity | reflexivity]).
Qed.

(** C10: the policy the stack gives the deleting function is one statement
    that allows [iam:DeleteServerCertificate] on resource [*]; it allows
    the deletion of a server certificate whatever its ARN. *)
Theorem delete_function_any_certificate :
  role_policy the_stack "DeleteCertFunction"
  = [ {| iam.resources := [Lit "*"];
         iam.actions := ["iam:DeleteServerCertificate"];
         iam.effect := iam.ALLOW |} ]
  /\ forall rho arn,
       policy_allows rho (role_policy the_stack "DeleteCertFunction")
                     "iam:DeleteServerCertificate" arn = true.
Proof.
  rewrite role_policy_delete. split; [reflexivity|].
  intros rho arn. rewrite policy_allows_one.
  replace (action_matches "iam:DeleteServerCertificate"
                          "iam:DeleteServerCertificate")
    with true by (vm_compute; reflexivity).
  cbn [existsb andb]. unfold resource_matches. cbn [subst as_string].
  change (list_ascii_of_string "*") with ["*"%char].
  rewrite glob_star. reflexivity.
Qed.

(* ===================================================================== *)
(** ** Further properties: the parameters *)
(* ===================================================================== *)

Lemma requested_default_interval i :
  lookup "renewIntervalDays" (parameterValues i) = None ->
  requested the_stack i "renewIntervalDays" = Some (PNum 80%Q).
Proof.
  intros H. unfold requested. rewrite find_renewIntervalDays, H. reflexivity.
Qed.

Lemma requested_missing_domain i :
  lookup "domainName" (parameterValues i) = None ->
  requested the_stack i "domainName" = None.
Proof.
  intros H. unfold requested. rewrite find_domainName, H. reflexivity.
Qed.

Lemma requested_missing_email i :
  lookup "emailAddress" (parameterValues i) = None ->
  requested the_stack i "emailAddress" = None.
Proof.
  intros H. unfold requested. rewrite find_emailAddress, H. reflexivity.
Qed.

Lemma eighty_in_range : (1 <= 80 <= 89)%Q.
Proof. split; discriminate. Qed.

(** X1: a request that gives no renew interval is treated as one of 80
    days: with a non-empty domain list and an email address of the
    declared shape it is accepted, and its schedule is a rate of 80 days,
    6912000 seconds. *)
Theorem default_renew_interval (i : Instance) (d e : string)
  (Hnone : lookup "renewIntervalDays" (parameterValues i) = None)
  (Hd : requested the_stack i "domainName" = Some (PStr d))
  (He : requested the_stack i "emailAddress" = Some (PStr e))
  (Hlen : 1 <= String.length d)
  (Hshape : email_shape e) :
  accepted_parameters the_stack i = Some (configuration d e 80%Q)
  /\ map fst (on_schedule the_stack i) = [Rate (DurationOps.days (Num 80%Q))]
  /\ map period_seconds (map fst (on_schedule the_stack i))
     = [Some 6912000%Q].
Proof.
  assert (Hacc : accepted_parameters the_stack i
                 = Some (configuration d e 80%Q)).
  { apply accepted_spec. exists d, e, 80%Q.
    rewrite (requested_default_interval i Hnone).
    repeat split; auto; apply eighty_in_range. }
  rewrite (on_schedule_whole i d e 80%Q Hacc eq_refl).
  repeat split. exact Hacc.
Qed.

Lemma sample_email_shape : email_shape "ops@example.cn".
Proof. apply email_pattern_spec. reflexivity. Qed.

(** X1 at the request with the lone comma, which names no interval. *)
Lemma default_renew_interval_witness :
  accepted_parameters the_stack comma_instance
  = Some (configuration "," "ops@example.cn" 80%Q)
  /\ map fst (on_schedule the_stack comma_instance)
     = [Rate (DurationOps.days (Num 80%Q))]
  /\ map period_seconds (map fst (on_schedule the_stack comma_instance))
     = [Some 6912000%Q].
Proof.
  apply (default_renew_interval comma_instance "," "ops@example.cn").
  - reflexivity.
  - reflexivity.
  - reflexivity.
  - cbn. lia.
  - exact sample_email_shape.
Defined.

(** X2: the domain list and the email address have no default: a request
    that leaves one of them out is refused, and no run is ever started
    for it. *)
Theorem missing_required_parameter (i : Instance)
  (Hmiss : lookup "domainName" (parameterValues i) = None
           \/ lookup "emailAddress" (parameterValues i) = None) :
  accepted_parameters the_stack i = None
  /\ forall ev, runs the_stack i ev = [].
Proof.
  assert (Hrej : accepted_parameters the_stack i = None).
  { destruct (accepted_parameters the_stack i) as [vals|] eqn:Hacc;
      [|reflexivity].
    apply accepted_spec in Hacc as (d & e & v & _ & Hd & He & _).
    destruct Hmiss as [H|H].
    - rewrite (requested_missing_domain i H) in Hd. discriminate Hd.
    - rewrite (requested_missing_email i H) in He. discriminate He. }
  split; [exact Hrej|]. intros ev. apply runs_rejected, Hrej.
Qed.

(** X2 at the request without an email address. *)
Lemma missing_required_parameter_witness :
  accepted_parameters the_stack no_email_instance = None
  /\ forall ev, runs the_stack no_email_instance ev = [].
Proof.
  apply (missing_required_parameter no_email_instance).
  right. reflexivity.
Defined.

(** The declaration of [emailAddress] accepts the texts of the shape. *)
Lemma email_parameter_shape e :
  parameter_accepts the_stack "emailAddress" (PStr e) = true
  <-> email_shape e.
Proof.
  unfold parameter_accepts. rewrite find_emailAddress.
  rewrite emailAddress_accepts. split.
  - intros (s & [= <-] & H). exact H.
  - intros H. exists e. auto.
Qed.

Lemma length_list_ascii s :
  List.length (list_ascii_of_string s) = String.length s.
Proof. induction s as [|c s IH]; cbn; congruence. Qed.

Lemma word_not_at c : Regex.is_word c = true -> c <> "@"%char.
Proof. intros H ->. discriminate H. Qed.

Lemma local_not_at c : local_char c = true -> c <> "@"%char.
Proof. intros H ->. discriminate H. Qed.

Lemma domain_not_at c : domain_char c = true -> c <> "@"%char.
Proof. intros H ->. discriminate H. Qed.

Lemma letter_not_at c : letter c = true -> c <> "@"%char.
Proof. intros H ->. discriminate H. Qed.

Lemma letter_not_dot c : letter c = true -> c <> "."%char.
Proof. intros H ->. discriminate H. Qed.

Lemma count_none (P : ascii -> bool) (x : ascii) l :
  (forall c, P c = true -> c <> x) ->
  forallb P l = true -> count_occ ascii_dec l x = 0.
Proof.
  intros HP. induction l as [|c l IH]; intros H; [reflexivity|].
  cbn [forallb] in H. apply andb_true_iff in H as [Hc Hl].
  cbn [count_occ]. destruct (ascii_dec c x) as [E|_].
  - exfalso. exact (HP c Hc E).
  - exact (IH Hl).
Qed.

(** X3: an accepted email address holds exactly one [@] and is at least
    six characters long. *)
Theorem accepted_email_one_at (e : string)
  (Hacc : parameter_accepts the_stack "emailAddress" (PStr e) = true) :
  count_occ ascii_dec (list_ascii_of_string e) "@"%char = 1
  /\ 6 <= String.length e.
Proof.
  apply email_parameter_shape in Hacc
    as (c & l & d & t & E & Hc & Hl & Hd & Hdom & [Ht2 Ht6] & Hlet).
  rewrite <- length_list_ascii, E. split.
  - rewrite count_occ_app. cbn [count_occ].
    destruct (ascii_dec c "@") as [Ec|_];
      [exfalso; exact (word_not_at c Hc Ec)|].
    rewrite (count_none local_char "@" l local_not_at Hl).
    destruct (ascii_dec "@" "@") as [_|N]; [|congruence].
    rewrite count_occ_app. cbn [count_occ].
    rewrite (count_none domain_char "@" d domain_not_at Hdom).
    destruct (ascii_dec "." "@") as [N|_]; [discriminate N|].
    rewrite (count_none letter "@" t letter_not_at Hlet). reflexivity.
  - rewrite length_app. cbn [List.length]. rewrite length_app.
    cbn [List.length].
    destruct d as [|x d]; [congruence|]. cbn [List.length]. lia.
Qed.

(** X3 at the address of the sample request. *)
Lemma accepted_email_one_at_witness :
  count_occ ascii_dec (list_ascii_of_string "ops@example.cn") "@"%char = 1
  /\ 6 <= String.length "ops@example.cn".
Proof.
  apply (accepted_email_one_at "ops@example.cn"). reflexivity.
Defined.

(** X4: an email address has to start with a letter, a digit or an
    underscore: one that starts with any other character, also with one of
    [.%+-] that may stand later in the local part, is refused. *)
Theorem email_first_character (c : ascii) (rest : string)
  (Hc : Regex.is_word c = false) :
  parameter_accepts the_stack "emailAddress" (PStr (String c rest)) = false.
Proof.
  destruct (parameter_accepts the_stack "emailAddress"
              (PStr (String c rest))) eqn:Hacc; [|reflexivity].
  apply email_parameter_shape in Hacc
    as (c0 & l & d & t & E & Hc0 & _).
  cbn [list_ascii_of_string app] in E. injection E as <- _.
  congruence.
Qed.

(** X4 at an address that starts with a plus sign. *)
Lemma email_first_character_witness :
  parameter_accepts the_stack "emailAddress" (PStr "+ops@example.cn") = false.
Proof.
  apply (email_first_character "+"%char "ops@example.cn"). reflexivity.
Defined.

Lemma after_last_dot (a b t t' : list ascii) :
  ~ In "."%char t -> ~ In "."%char t' ->
  (a ++ "."%char :: t = b ++ "."%char :: t')%list -> t = t'.
Proof.
  revert b. induction a as [|x a IH]; intros [|y b] Ht Ht' E;
    cbn [app] in E.
  - congruence.
  - injection E as _ E. exfalso. apply Ht. rewrite E.
    apply in_or_app. right. left. reflexivity.
  - injection E as _ E. exfalso. apply Ht'. rewrite <- E.
    apply in_or_app. right. left. reflexivity.
  - injection E as _ E. exact (IH b Ht Ht' E).
Qed.

Lemma letters_no_dot t : forallb letter t = true -> ~ In "."%char t.
Proof.
  intros H Hin. rewrite forallb_forall in H.
  exact (letter_not_dot "." (H _ Hin) eq_refl).
Qed.

(** X5: in an accepted email address the text after the last dot is two
    to six letters: a longer ending, or one with a digit or a hyphen, is
    refused. *)
Theorem accepted_email_ending (e : string) (pre t : list ascii)
  (Hacc : parameter_accepts the_stack "emailAddress" (PStr e) = true)
  (Hsplit : list_ascii_of_string e = (pre ++ "."%char :: t)%list)
  (Hlast : ~ In "."%char t) :
  2 <= List.length t <= 6 /\ forallb letter t = true.
Proof.
  apply email_parameter_shape in Hacc
    as (c & l & d & t' & E & _ & _ & _ & _ & Hlen & Hlet).
  rewrite Hsplit in E.
  change ((c :: l) ++ "@"%char :: d ++ "."%char :: t')%list
    with ((c :: l) ++ ("@"%char :: d) ++ "."%char :: t')%list in E.
  rewrite app_assoc in E.
  rewrite (after_last_dot pre _ t t' Hlast (letters_no_dot t' Hlet) E).
  split; [exact Hlen | exact Hlet].
Qed.

(** X5 at the address of the sample request, which ends in [cn]. *)
Lemma accepted_email_ending_witness :
  2 <= List.length ["c"; "n"]%char <= 6
  /\ forallb letter ["c"; "n"]%char = true.
Proof.
  apply (accepted_email_ending "ops@example.cn"
           (list_ascii_of_string "ops@example") ["c"; "n"]%char).
  - reflexivity.
  - reflexivity.
  - cbn. intros [H|[H|[]]]; discriminate H.
Defined.

(* ===================================================================== *)
(** ** Further properties: the two triggers *)
(* ===================================================================== *)

(** X6: the rule on stack events and the scheduled rule start the same
    run: the same function with the same environment, input and time
    limit; only the rule that started it tells the two runs apart. *)
Theorem triggers_start_same_run (i : Instance) (d e : string) (v : Q)
  (Hacc : accepted_parameters the_stack i = Some (configuration d e v))
  (ev : Json) (by_event by_scheduler : Invocation)
  (Hev : In by_event (on_event the_stack i ev))
  (Hsc : In by_scheduler (map snd (on_schedule the_stack i))) :
  function by_event = function by_scheduler
  /\ environment by_event = environment by_scheduler
  /\ input by_event = input by_scheduler
  /\ time_limit by_event = time_limit by_scheduler
  /\ by_rule by_event = "CertCfnCreatedRule"
  /\ by_rule by_scheduler = "CertScheduledRule".
Proof.
  rewrite (on_event_accepted i d e v ev Hacc) in Hev.
  rewrite (on_schedule_accepted i d e v Hacc) in Hsc.
  destruct (schedulable v); [|destruct Hsc].
  destruct (completes_create_or_update i ev); [|destruct Hev].
  destruct Hev as [<-|[]]. destruct Hsc as [<-|[]].
  repeat split.
Qed.

(** X6 at the sample request and the event that reports its creation. *)
Lemma triggers_start_same_run_witness :
  environment (certbot_run "CertCfnCreatedRule" sample_instance
                 "www.example.cn,*.example.cn" "ops@example.cn")
  = environment (certbot_run "CertScheduledRule" sample_instance
                   "www.example.cn,*.example.cn" "ops@example.cn").
Proof.
  refine (proj1 (proj2 (triggers_start_same_run sample_instance _ _ _
                          accepted_sample created_event _ _ _ _))).
  - rewrite (on_event_accepted _ _ _ _ created_event accepted_sample).
    left. reflexivity.
  - rewrite (on_schedule_whole _ _ _ _ accepted_sample eq_refl).
    left. reflexivity.
Defined.

(** X7: an event on the bus starts at most one run, always through the
    rule on stack events; the scheduled rule never reacts to an event,
    whatever the request and the events. *)
Theorem event_starts_at_most_one_run (i : Instance) (ev : Json)
  (trace : list Json) :
  List.length (on_event the_stack i ev) <= 1
  /\ (forall run, In run (on_event the_stack i ev) ->
                  by_rule run = "CertCfnCreatedRule")
  /\ firings the_stack i "CertScheduledRule" trace = [].
Proof.
  destruct (accepted_parameters the_stack i) as [vals|] eqn:Hacc.
  - pose proof Hacc as Hspec.
    apply accepted_spec in Hspec as (d & e & v & -> & _).
    split; [|split].
    + rewrite (on_event_accepted i d e v ev Hacc).
      destruct (completes_create_or_update i ev); cbn; lia.
    + intros run. rewrite (on_event_accepted i d e v ev Hacc).
      destruct (completes_create_or_update i ev); [|intros []].
      intros [<-|[]]. reflexivity.
    + unfold firings. induction trace as [|ev' trace IH]; [reflexivity|].
      cbn [flat_map]. rewrite filter_app, IH, app_nil_r.
      rewrite (on_event_accepted i d e v ev' Hacc).
      destruct (completes_create_or_update i ev'); reflexivity.
  - split; [|split].
    + rewrite (on_event_rejected i ev Hacc). cbn. lia.
    + intros run. rewrite (on_event_rejected i ev Hacc). intros [].
    + unfold firings. induction trace as [|ev' trace IH]; [reflexivity|].
      cbn [flat_map]. rewrite filter_app, IH, app_nil_r.
      rewrite (on_event_rejected i ev' Hacc). reflexivity.
Qed.

(** X8: in every instance the period of the schedule lies between one
    day and 89 days: between 86400 and 7689600 seconds. *)
Theorem schedule_period_bounds (i : Instance)
  (vals : list (string * ParamValue))
  (Hacc : accepted_parameters the_stack i = Some vals)
  (sched : Schedule) (run : Invocation)
  (Hin : In (sched, run) (on_schedule the_stack i)) :
  exists p, period_seconds sched = Some p
            /\ (86400 <= p <= 7689600)%Q.
Proof.
  pose proof Hacc as Hspec.
  apply accepted_spec in Hspec
    as (d & e & v & -> & _ & _ & _ & _ & _ & Hlo & Hhi).
  rewrite (on_schedule_accepted i d e v Hacc) in Hin.
  destruct (schedulable v) eqn:Hwhole; [|destruct Hin].
  destruct Hin as [[= <- _]|[]].
  exists (v * 86400)%Q. split; [|split; lra].
  pose proof (period_seconds_days v) as Hp. rewrite Hwhole in Hp. exact Hp.
Qed.

(** X8 at the sample request: 30 days. *)
Lemma schedule_period_bounds_witness :
  exists p, period_seconds (Rate (DurationOps.days (Num 30%Q))) = Some p
            /\ (86400 <= p <= 7689600)%Q.
Proof.
  apply (schedule_period_bounds sample_instance _ accepted_sample
           (Rate (DurationOps.days (Num 30%Q)))
           (certbot_run "CertScheduledRule" sample_instance
              "www.example.cn,*.example.cn" "ops@example.cn")).
  rewrite (on_schedule_whole _ _ _ _ accepted_sample eq_refl).
  left. reflexivity.
Defined.

(* ===================================================================== *)
(** ** Further properties: what the functions are allowed *)
(* ===================================================================== *)

Lemma role_policy_certbot :
  role_policy the_stack "CertBotFunction" = certbot_policy.
Proof. vm_compute. reflexivity. Qed.

Lemma role_policy_explorer :
  role_policy the_stack "APIExplorerFunction" = [].
Proof. vm_compute. reflexivity. Qed.

(** A request that a policy allows is for an action that one of its
    [ALLOW] statements lists. *)
Lemma policy_allows_action rho policy action arn :
  policy_allows rho policy action arn = true ->
  exists pattern, In pattern (allowed_actions policy)
                  /\ action_matches pattern action = true.
Proof.
  unfold policy_allows. intros H. apply andb_true_iff in H as [H _].
  apply existsb_exists in H as (st & Hin & H).
  apply andb_true_iff in H as [Hallow H].
  unfold statement_applies in H. apply andb_true_iff in H as [H _].
  apply existsb_exists in H as (pattern & Hpat & Hmatch).
  exists pattern. split; [|exact Hmatch].
  unfold allowed_actions. apply in_flat_map. exists st. split; [|exact Hpat].
  apply filter_In. auto.
Qed.

(** A policy without [DENY] statements allows what one of its statements
    applies to. *)
Lemma policy_allows_intro rho policy st action arn :
  forallb is_allow policy = true ->
  In st policy ->
  statement_applies rho st action arn = true ->
  policy_allows rho policy action arn = true.
Proof.
  intros Hall Hin Happ. unfold policy_allows. apply andb_true_iff. split.
  - apply existsb_exists. exists st. split; [exact Hin|].
    rewrite forallb_forall in Hall. rewrite (Hall st Hin), Happ. reflexivity.
  - apply negb_true_iff. clear Hin Happ.
    induction policy as [|s policy IH]; [reflexivity|].
    cbn [forallb] in Hall. apply andb_true_iff in Hall as [Hs Hall].
    cbn [existsb]. rewrite Hs, (IH Hall). reflexivity.
Qed.

Lemma glob_star_cons p s :
  glob ("*"%char :: p) s
  = glob p s || match s with
                | [] => false
                | _ :: s' => glob ("*"%char :: p) s'
                end.
Proof. destruct s; reflexivity. Qed.

Lemma glob_any_cons p s :
  glob ("?"%char :: p) s
  = match s with [] => false | _ :: s' => glob p s' end.
Proof. reflexivity. Qed.

(** A pattern matches a text that starts with the pattern's own first
    part when the rest of the pattern matches the rest of the text. *)
Lemma glob_prefix p q s :
  glob q s = true -> glob (p ++ q) (p ++ s) = true.
Proof.
  intros H. induction p as [|c p IH]; [exact H|].
  cbn [app].
  destruct (Ascii.eqb c "*") eqn:Estar.
  - apply Ascii.eqb_eq in Estar. subst c.
    rewrite glob_star_cons, glob_star_cons, IH. apply orb_true_r.
  - destruct (Ascii.eqb c "?") eqn:Eany.
    + apply Ascii.eqb_eq in Eany. subst c. rewrite glob_any_cons. exact IH.
    + rewrite glob_plain_cons
        by (unfold plain_char; rewrite Estar, Eany; reflexivity).
      rewrite Ascii.eqb_refl, IH. reflexivity.
Qed.

Lemma glob_refl p : glob p p = true.
Proof.
  rewrite <- (app_nil_r p). apply glob_prefix. reflexivity.
Qed.

Lemma action_matches_refl a : action_matches a a = true.
Proof. rewrite action_matches_glob. apply glob_refl. Qed.

Lemma string_app_assoc (a b c : string) : (a ++ b) ++ c = a ++ b ++ c.
Proof. induction a as [|x a IH]; cbn; congruence. Qed.

Lemma list_ascii_app a b :
  list_ascii_of_string (a ++ b)
  = (list_ascii_of_string a ++ list_ascii_of_string b)%list.
Proof. induction a as [|c a IH]; cbn; congruence. Qed.

(** A resource pattern that ends in [*] covers every ARN that starts
    with the text before the [*]. *)
Lemma resource_matches_prefix rho pattern stem rest :
  as_string (subst rho pattern) = Some (stem ++ "*") ->
  resource_matches rho pattern (stem ++ rest) = true.
Proof.
  intros H. unfold resource_matches. rewrite H, !list_ascii_app.
  apply glob_prefix. apply glob_star.
Qed.

Lemma certbot_patterns_plain :
  forallb (fun a => forallb plain_char (lowercase a))
          (allowed_actions certbot_policy) = true.
Proof. vm_compute. reflexivity. Qed.

(** X9: the policy of the issuing function allows no request for an
    action other than the nineteen its two statements list, whatever the
    resource; in particular it never allows the deletion of an object of
    the bucket. *)
Theorem issuing_function_actions :
  (forall rho action arn,
     policy_allows rho (role_policy the_stack "CertBotFunction") action arn
     = true ->
     In (lowercase action)
        (map lowercase
             (allowed_actions (role_policy the_stack "CertBotFunction"))))
  /\ List.length (allowed_actions (role_policy the_stack "CertBotFunction"))
     = 19
  /\ forall rho arn,
       policy_allows rho (role_policy the_stack "CertBotFunction")
                     "s3:DeleteObject" arn = false.
Proof.
  rewrite role_policy_certbot.
  assert (Hlisted : forall rho action arn,
             policy_allows rho certbot_policy action arn = true ->
             In (lowercase action)
                (map lowercase (allowed_actions certbot_policy))).
  { intros rho action arn H.
    apply policy_allows_action in H as (pattern & Hin & Hmatch).
    rewrite action_matches_glob in Hmatch.
    pose proof certbot_patterns_plain as Hplain.
    rewrite forallb_forall in Hplain.
    rewrite (glob_plain _ _ (Hplain pattern Hin) Hmatch).
    apply in_map. exact Hin. }
  split; [exact Hlisted | split; [reflexivity|]].
  intros rho arn.
  destruct (policy_allows rho certbot_policy "s3:DeleteObject" arn) eqn:H;
    [|reflexivity].
  apply Hlisted in H. exfalso. clear Hlisted.
  vm_compute in H.
  repeat (destruct H as [H|H]; [discriminate H|]). exact H.
Qed.

Lemma certbot_all_allow : forallb is_allow certbot_policy = true.
Proof. reflexivity. Qed.

Lemma certbot_scoped_statement :
  In {| iam.resources := [
          (Lit "arn:aws-cn:iam::" +# Aws.ACCOUNT_ID
           +# Lit ":server-certificate/*")%tok;
          Lit "arn:aws-cn:route53:::hostedzone/*";
          bucketArn "CertBucket";
          (bucketArn "CertBucket" +# Lit "/*")%tok;
          topicArn "Topic"];
        iam.actions := certbot_scoped_actions;
        iam.effect := iam.ALLOW |}
     certbot_policy.
Proof. right. left. reflexivity. Qed.

(** X10: whatever the account of the instance, the issuing function may
    apply every action of its second statement (reading, uploading,
    updating, tagging and deleting among them) to every server
    certificate of that account, and to every hosted zone. *)
Theorem issuing_function_own_certificates (i : Instance)
  (vals : list (string * ParamValue)) (action name zone : string)
  (Haction : In action certbot_scoped_actions) :
  policy_allows (resolve i vals) (role_policy the_stack "CertBotFunction")
                action (server_certificate_arn (accountId i) name) = true
  /\ policy_allows (resolve i vals) (role_policy the_stack "CertBotFunction")
                   action (hosted_zone_arn zone) = true.
Proof.
  rewrite role_policy_certbot.
  assert (Hact : existsb (fun a => action_matches a action)
                         certbot_scoped_actions = true).
  { apply existsb_exists. exists action.
    split; [exact Haction | apply action_matches_refl]. }
  split.
  - apply (policy_allows_intro _ _ _ _ _ certbot_all_allow
             certbot_scoped_statement).
    unfold statement_applies. cbn [iam.actions iam.resources].
    rewrite Hact. cbn [andb existsb].
    unfold server_certificate_arn. rewrite <- !string_app_assoc.
    rewrite (resource_matches_prefix (resolve i vals) _
               (("arn:aws-cn:iam::" ++ accountId i) ++ ":server-certificate/")
               name); [reflexivity|].
    unfold Aws.ACCOUNT_ID. cbn [subst].
    change (resolve i vals "AWS::AccountId") with (Some (Lit (accountId i))).
    cbn [as_string]. rewrite !string_app_assoc. reflexivity.
  - apply (policy_allows_intro _ _ _ _ _ certbot_all_allow
             certbot_scoped_statement).
    unfold statement_applies. cbn [iam.actions iam.resources].
    rewrite Hact. cbn [andb existsb].
    unfold hosted_zone_arn.
    rewrite (resource_matches_prefix (resolve i vals)
               (Lit "arn:aws-cn:route53:::hostedzone/*")
               "arn:aws-cn:route53:::hostedzone/" zone); [|reflexivity].
    apply orb_true_r.
Qed.

(** X10 for the upload of a certificate in the account of the sample
    request. *)
Lemma issuing_function_own_certificates_witness :
  policy_allows (resolve sample_instance [])
                (role_policy the_stack "CertBotFunction")
                "iam:UploadServerCertificate"
                (server_certificate_arn "123456789012" "www.example.cn")
  = true.
Proof.
  refine (proj1 (issuing_function_own_certificates sample_instance []
                   "iam:UploadServerCertificate" "www.example.cn"
                   "Z0123456789" _)).
  unfold certbot_scoped_actions. do 7 right. left. reflexivity.
Defined.

(** X11: the policy of the deleting function allows no request for an
    action other than [iam:DeleteServerCertificate], and the API explorer
    function is given no permission at all. *)
Theorem management_functions_least_privilege :
  allowed_actions (role_policy the_stack "DeleteCertFunction")
  = ["iam:DeleteServerCertificate"]
  /\ (forall rho action arn,
        policy_allows rho (role_policy the_stack "DeleteCertFunction")
                      action arn = true ->
        lowercase action = lowercase "iam:DeleteServerCertificate")
  /\ forall rho action arn,
       policy_allows rho (role_policy the_stack "APIExplorerFunction")
                     action arn = false.
Proof.
  rewrite role_policy_delete, role_policy_explorer.
  split; [reflexivity | split].
  - intros rho action arn H.
    rewrite policy_allows_one in H. apply andb_true_iff in H as [H _].
    rewrite action_matches_glob in H.
    apply (glob_plain (lowercase "iam:DeleteServerCertificate")
                      (lowercase action)); [reflexivity | exact H].
  - intros rho action arn. reflexivity.
Qed.

(* ===================================================================== *)
(** ** Further properties: the construct tree *)
(* ===================================================================== *)

Lemma lookup_In {A} k (v : A) l : lookup k l = Some v -> In (k, v) l.
Proof.
  induction l as [|[k' v'] l IH]; [discriminate|].
  cbn [lookup]. destruct (String.eqb k k') eqn:E.
  - apply String.eqb_eq in E. intros [= ->]. left. congruence.
  - intros H. right. exact (IH H).
Qed.

Lemma distinct_NoDup l : distinct l = true -> NoDup l.
Proof.
  induction l as [|x l IH]; intros H; [constructor|].
  cbn [distinct] in H. apply andb_true_iff in H as [Hx Hl].
  constructor; [|exact (IH Hl)].
  intros Hin. apply negb_true_iff in Hx.
  assert (existsb (String.eqb x) l = true) as Hex
      by (apply existsb_exists; exists x; split;
          [exact Hin | apply String.eqb_refl]).
  congruence.
Qed.

Lemma In_lookup {A} k (v : A) l :
  NoDup (map fst l) -> In (k, v) l -> lookup k l = Some v.
Proof.
  induction l as [|[k' v'] l IH]; intros Hnd Hin; [destruct Hin|].
  cbn [map fst] in Hnd. inversion Hnd as [|? ? Hnot Hnd']. subst.
  cbn [lookup]. destruct Hin as [[= -> ->]|Hin].
  - rewrite String.eqb_refl. reflexivity.
  - destruct (String.eqb k k') eqn:E; [|exact (IH Hnd' Hin)].
    apply String.eqb_eq in E. subst k'. exfalso. apply Hnot.
    apply (in_map fst _ _ Hin).
Qed.

Lemma stack_ids_distinct : distinct (map fst (children the_stack)) = true.
Proof. vm_compute. reflexivity. Qed.

(** X12: the constructor gives every construct an id of its own, so a
    construct is found under its id: no construct hides another. *)
Theorem construct_ids_distinct :
  NoDup (map fst (children the_stack))
  /\ forall id c, In (id, c) (children the_stack) <-> find the_stack id = Some c.
Proof.
  pose proof (distinct_NoDup _ stack_ids_distinct) as Hnd.
  split; [exact Hnd|]. intros id c. unfold find. split.
  - apply In_lookup. exact Hnd.
  - apply lookup_In.
Qed.

Lemma mentions_refs x t : mentions x t = true <-> In x (refs t).
Proof.
  induction t as [s|q|y|y a|a IHa b IHb]; cbn [mentions refs].
  - split; [discriminate | intros []].
  - split; [discriminate | intros []].
  - rewrite String.eqb_eq. split; [intros ->; left; reflexivity|].
    intros [H|[]]. congruence.
  - rewrite String.eqb_eq. split; [intros ->; left; reflexivity|].
    intros [H|[]]. congruence.
  - rewrite orb_true_iff, in_app_iff, IHa, IHb. reflexivity.
Qed.

Lemma references_declared_spec s :
  references_declared s = true ->
  forall id c t x,
    In (id, c) (children s) -> In t (tokens_of c) -> mentions x t = true ->
    pseudo_parameter x = true \/ exists c', find s x = Some c'.
Proof.
  unfold references_declared. intros H id c t x Hc Ht Hx.
  rewrite forallb_forall in H. specialize (H (id, c) Hc). cbn [snd] in H.
  rewrite forallb_forall in H. specialize (H t Ht).
  rewrite forallb_forall in H. apply mentions_refs in Hx.
  specialize (H x Hx). apply orb_true_iff in H as [H|H]; [left; exact H|].
  right. unfold declared in H.
  destruct (find s x) as [c'|]; [exists c'; reflexivity | discriminate H].
Qed.

Lemma handles_resolve_spec s :
  handles_resolve s = true ->
  forall id c, In (id, c) (children s) -> handles_of_kind s c = true.
Proof.
  unfold handles_resolve. intros H id c Hc.
  rewrite forallb_forall in H. exact (H (id, c) Hc).
Qed.

Lemma find_rule_In s id r : find_rule s id = Some r -> In (id, CRule r) (children s).
Proof.
  unfold find_rule, find. intros H.
  destruct (lookup id (children s)) as [[]|] eqn:E; try discriminate H.
  injection H as <-. exact (lookup_In _ _ _ E).
Qed.

Lemma find_api_In s id a :
  find_api s id = Some a -> In (id, CRestApi a) (children s).
Proof.
  unfold find_api, find. intros H.
  destruct (lookup id (children s)) as [[]|] eqn:E; try discriminate H.
  injection H as <-. exact (lookup_In _ _ _ E).
Qed.

Lemma find_stage_In s id st :
  find_stage s id = Some st -> In (id, CStage st) (children s).
Proof.
  unfold find_stage, find. intros H.
  destruct (lookup id (children s)) as [[]|] eqn:E; try discriminate H.
  injection H as <-. exact (lookup_In _ _ _ E).
Qed.

Lemma find_deployment_In s id d :
  find_deployment s id = Some d -> In (id, CDeployment d) (children s).
Proof.
  unfold find_deployment, find. intros H.
  destruct (lookup id (children s)) as [[]|] eqn:E; try discriminate H.
  injection H as <-. exact (lookup_In _ _ _ E).
Qed.

Lemma targets_are_functions s :
  handles_resolve s = true ->
  forall id r t,
    find_rule s id = Some r -> In t (events.targets r) ->
    exists f, find_function s (events.handler t) = Some f.
Proof.
  intros H id r t Hr Ht. apply find_rule_In in Hr.
  pose proof (handles_resolve_spec s H _ _ Hr) as Hk.
  cbn [handles_of_kind] in Hk.
  rewrite forallb_forall in Hk. specialize (Hk t Ht).
  unfold is_function in Hk.
  destruct (find_function s (events.handler t)) as [f|];
    [exists f; reflexivity | discriminate Hk].
Qed.

Lemma integrations_are_functions s :
  handles_resolve s = true ->
  forall id a m fn proxy,
    find_api s id = Some a -> In m (apigateway.methods a) ->
    apigateway.integration m = apigateway.LambdaIntegration fn proxy ->
    exists f, find_function s fn = Some f.
Proof.
  intros H id a m fn proxy Ha Hm Hint. apply find_api_In in Ha.
  pose proof (handles_resolve_spec s H _ _ Ha) as Hk.
  cbn [handles_of_kind] in Hk.
  rewrite forallb_forall in Hk. specialize (Hk m Hm).
  rewrite Hint in Hk. unfold is_function in Hk.
  destruct (find_function s fn) as [f|];
    [exists f; reflexivity | discriminate Hk].
Qed.

Lemma stages_are_deployed s :
  handles_resolve s = true ->
  forall id st,
    find_stage s id = Some st ->
    exists d a, find_deployment s (apigateway.deployment st) = Some d
                /\ find_api s (apigateway.api d) = Some a.
Proof.
  intros H id st Hst. apply find_stage_In in Hst.
  pose proof (handles_resolve_spec s H _ _ Hst) as Hk.
  cbn [handles_of_kind] in Hk.
  destruct (find_deployment s (apigateway.deployment st))
    as [d|] eqn:Hd; [|discriminate Hk].
  pose proof (find_deployment_In _ _ _ Hd) as Hd'.
  pose proof (handles_resolve_spec s H _ _ Hd') as Ha.
  cbn [handles_of_kind] in Ha.
  destruct (find_api s (apigateway.api d)) as [a|] eqn:Hapi;
    [|discriminate Ha].
  exists d, a. split; [reflexivity | exact Hapi].
Qed.

Lemma stack_references_declared : references_declared the_stack = true.
Proof. vm_compute. reflexivity. Qed.

Lemma stack_handles_resolve : handles_resolve the_stack = true.
Proof. vm_compute. reflexivity. Qed.

(** X13: nothing in the stack refers to a construct that is not there:
    every reference in an expression of a construct is to a pseudo
    parameter or to a construct of the stack, every target of a rule and
    every Lambda integration of a method is a function of the stack, the
    stage has its deployment and the deployment its API. *)
Theorem no_dangling_reference :
  (forall id c t x,
     In (id, c) (children the_stack) -> In t (tokens_of c) ->
     mentions x t = true ->
     pseudo_parameter x = true \/ exists c', find the_stack x = Some c')
  /\ (forall id r t,
        find_rule the_stack id = Some r -> In t (events.targets r) ->
        exists f, find_function the_stack (events.handler t) = Some f)
  /\ (forall id a m fn proxy,
        find_api the_stack id = Some a -> In m (apigateway.methods a) ->
        apigateway.integration m = apigateway.LambdaIntegration fn proxy ->
        exists f, find_function the_stack fn = Some f)
  /\ (forall id st,
        find_stage the_stack id = Some st ->
        exists d a, find_deployment the_stack (apigateway.deployment st)
                    = Some d
                    /\ find_api the_stack (apigateway.api d) = Some a).
Proof.
  split; [exact (references_declared_spec _ stack_references_declared)|].
  split; [exact (targets_are_functions _ stack_handles_resolve)|].
  split; [exact (integrations_are_functions _ stack_handles_resolve)|].
  exact (stages_are_deployed _ stack_handles_resolve).
Qed.

Lemma select_In {A} (pick : Construct -> option A) l id c a :
  In (id, c) l -> pick c = Some a -> In (id, a) (select pick l).
Proof.
  induction l as [|[k c'] l IH]; intros Hin Hp; [destruct Hin|].
  cbn [select]. destruct Hin as [[= -> ->]|Hin].
  - rewrite Hp. left. reflexivity.
  - destruct (pick c'); [right|]; exact (IH Hin Hp).
Qed.

Lemma find_parameter_In s x p :
  find_parameter s x = Some p -> In (x, p) (parameters_of s).
Proof.
  unfold find_parameter, find, parameters_of. intros H.
  destruct (lookup x (children s)) as [[]|] eqn:E; try discriminate H.
  injection H as <-.
  apply (select_In _ _ x (CParameter p0)); [|reflexivity].
  exact (lookup_In _ _ _ E).
Qed.

Lemma declared_parameter_names x :
  (exists p, find_parameter the_stack x = Some p)
  <-> x = "emailAddress" \/ x = "domainName" \/ x = "renewIntervalDays".
Proof.
  split.
  - intros (p & H). apply find_parameter_In in H.
    rewrite parameters_of_stack in H.
    destruct H as [H|[H|[H|[]]]]; injection H as <- _; auto.
  - intros [-> | [-> | ->]]; eexists.
    + exact find_emailAddress.
    + exact find_domainName.
    + exact find_renewIntervalDays.
Qed.

Lemma stack_metadata :
  templateMetadata the_stack
  = Some {| ParameterGroups :=
              [["emailAddress"; "domainName"; "renewIntervalDays"]];
            ParameterLabels :=
              [("domainName", "Domain Name"); ("emailAddress", "Email");
               ("renewIntervalDays", "SSL Renew Interval Days")] |}.
Proof. vm_compute. reflexivity. Qed.

(** X14: the form the console shows for the stack covers the declared
    parameters exactly: each declared parameter stands once in the one
    parameter group and has a label, and nothing else is grouped or
    labelled. *)
Theorem console_form_covers_parameters :
  exists m,
    templateMetadata the_stack = Some m
    /\ NoDup (concat (ParameterGroups m))
    /\ (forall x, In x (concat (ParameterGroups m))
                  <-> exists p, find_parameter the_stack x = Some p)
    /\ (forall x, (exists label, lookup x (ParameterLabels m) = Some label)
                  <-> exists p, find_parameter the_stack x = Some p).
Proof.
  eexists. split; [exact stack_metadata|].
  cbn [ParameterGroups ParameterLabels concat app]. split; [|split].
  - apply distinct_NoDup. reflexivity.
  - intros x. rewrite declared_parameter_names. cbn [In].
    intuition congruence.
  - intros x. rewrite declared_parameter_names. split.
    + intros (label & H). cbn [lookup] in H.
      destruct (String.eqb x "domainName") eqn:E1;
        [apply String.eqb_eq in E1; auto|].
      destruct (String.eqb x "emailAddress") eqn:E2;
        [apply String.eqb_eq in E2; auto|].
      destruct (String.eqb x "renewIntervalDays") eqn:E3;
        [apply String.eqb_eq in E3; auto | discriminate H].
    + intros [-> | [-> | ->]]; eexists; reflexivity.
Qed.

Lemma find_stage_prod :
  find_stage the_stack "ssl-cert-prod"
  = Some {| apigateway.stageName := "prod";
            apigateway.deployment := "mgmt_deployment";
            apigateway.dataTraceEnabled := true;
            apigateway.loggingLevel := apigateway.INFO |}.
Proof. vm_compute. reflexivity. Qed.

Lemma find_deployment_mgmt :
  find_deployment the_stack "mgmt_deployment"
  = Some {| apigateway.api := "SslCertManageAPI" |}.
Proof. vm_compute. reflexivity. Qed.

(** X15: the address of the API explorer is the same wherever the stack
    gives it, and it leads to what the stack deploys: it names the API of
    the deployment and the stage of that deployment, the explorer function
    gets it as [SWAGGER_SPEC_URL], the output [Management-Web-URL] shows it
    with the path [/api-explorer/], for which the API has a route, and in
    every instance each run of the issuing function gets as
    [API_EXPLORER] the address that output shows. *)
Theorem explorer_address_wiring :
  exists st d,
    find_stage the_stack "ssl-cert-prod" = Some st
    /\ find_deployment the_stack (apigateway.deployment st) = Some d
    /\ (exists f, find_function the_stack "APIExplorerFunction" = Some f
                  /\ lookup "SWAGGER_SPEC_URL" (lambda.env f)
                     = Some (invoke_url (apigateway.api d)
                                        (apigateway.stageName st)))
    /\ In ("GET", ["api-explorer"], "APIExplorerFunction")
          (routes (api_methods the_stack (apigateway.api d)))
    /\ exists o,
         find_output the_stack "Management-Web-URL" = Some o
         /\ value o = (invoke_url (apigateway.api d) (apigateway.stageName st)
                       +# Lit "/api-explorer/")%tok
         /\ forall i d' e v ev run,
              accepted_parameters the_stack i = Some (configuration d' e v) ->
              In run (runs the_stack i ev) ->
              lookup "API_EXPLORER" (environment run)
              = Some (subst (resolve i (configuration d' e v)) (value o)).
Proof.
  eexists. eexists.
  split; [exact find_stage_prod|]. split; [exact find_deployment_mgmt|].
  cbn [apigateway.api apigateway.stageName].
  split; [eexists; split; [vm_compute; reflexivity | reflexivity]|].
  split; [vm_compute; auto|].
  eexists. split; [vm_compute; reflexivity|]. split; [reflexivity|].
  intros i d' e v ev run Hacc Hin.
  destruct (in_runs_accepted i d' e v ev run Hacc Hin) as [-> | ->];
    reflexivity.
Qed.

Lemma find_topic_stack :
  find_topic the_stack "Topic"
  = Some {| sns.displayName :=
              (Aws.STACK_NAME +# Lit "-Issue-SSL-Notification")%tok;
            sns.subscriptions :=
              [sns.EmailSubscription (valueAsString "emailAddress")] |}.
Proof. vm_compute. reflexivity. Qed.

(** X16: the notifications go where the operator asked: in every
    instance the one subscriber of the topic is the email address of the
    request, which has the declared shape and is the address the issuing
    function is given; the function is given the ARN of that topic, and
    its policy lists [sns:Publish] with that topic among the resources. *)
Theorem notification_wiring (i : Instance) (d e : string) (v : Q)
  (Hacc : accepted_parameters the_stack i = Some (configuration d e v)) :
  (exists t, find_topic the_stack "Topic" = Some t
             /\ subscribers (resolve i (configuration d e v)) t = [Lit e])
  /\ email_shape e
  /\ (forall ev run,
        In run (runs the_stack i ev) ->
        lookup "DOMAINS_EMAIL" (environment run) = Some (Lit e)
        /\ lookup "TOPIC_ARN" (environment run) = Some (topicArn "Topic"))
  /\ exists st,
       In st (role_policy the_stack "CertBotFunction")
       /\ is_allow st = true
       /\ In "sns:Publish" (iam.actions st)
       /\ In (topicArn "Topic") (iam.resources st).
Proof.
  split; [eexists; split; [exact find_topic_stack | reflexivity]|].
  split.
  { apply accepted_spec in Hacc
      as (d0 & e0 & v0 & [= <- <- <-] & _ & _ & _ & _ & He & _).
    exact He. }
  split.
  - intros ev run Hin.
    destruct (in_runs_accepted i d e v ev run Hacc Hin) as [-> | ->];
      split; reflexivity.
  - rewrite role_policy_certbot. eexists.
    split; [exact certbot_scoped_statement|].
    split; [reflexivity|].
    cbn [iam.actions iam.resources]. unfold certbot_scoped_actions.
    split; [do 11 right; left; reflexivity
           | do 4 right; left; reflexivity].
Qed.

(** X16 at the sample request. *)
Lemma notification_wiring_witness : email_shape "ops@example.cn".
Proof.
  exact (proj1 (proj2 (notification_wiring sample_instance _ _ _
                         accepted_sample))).
Defined.

Lemma find_bucket_stack :
  find_bucket the_stack "CertBucket"
  = Some {| s3.removalPolicy := s3.DESTROY |}.
Proof. vm_compute. reflexivity. Qed.

(** X17: the certificates are stored in the one bucket of the stack,
    which is destroyed with the stack: in every instance each run of the
    issuing function is given the name of that bucket, the policy of the
    function lists [s3:ListBucket], [s3:PutObject] and [s3:GetObject] with
    the bucket and the objects in it among the resources, and the output
    [S3-Bucket-URL] is the console address of that bucket in the region
    of the instance. *)
Theorem bucket_wiring (i : Instance) (d e : string) (v : Q)
  (Hacc : accepted_parameters the_stack i = Some (configuration d e v)) :
  (exists b, find_bucket the_stack "CertBucket" = Some b
             /\ s3.removalPolicy b = s3.DESTROY)
  /\ (forall ev run,
        In run (runs the_stack i ev) ->
        lookup "CERTBOT_BUCKET" (environment run)
        = Some (bucketName "CertBucket"))
  /\ (exists st,
        In st (role_policy the_stack "CertBotFunction")
        /\ is_allow st = true
        /\ incl ["s3:ListBucket"; "s3:PutObject"; "s3:GetObject"]
                (iam.actions st)
        /\ incl [bucketArn "CertBucket";
                 (bucketArn "CertBucket" +# Lit "/*")%tok]
                (iam.resources st))
  /\ exists o,
       find_output the_stack "S3-Bucket-URL" = Some o
       /\ subst (resolve i (configuration d e v)) (value o)
          = (Lit "https://" +# Lit (region i)
             +# Lit ".console.amazonaws.cn/s3/buckets/"
             +# bucketName "CertBucket")%tok.
Proof.
  split; [eexists; split; [exact find_bucket_stack | reflexivity]|].
  split.
  { intros ev run Hin.
    destruct (in_runs_accepted i d e v ev run Hacc Hin) as [-> | ->];
      reflexivity. }
  split.
  - rewrite role_policy_certbot. eexists.
    split; [exact certbot_scoped_statement|].
    split; [reflexivity|].
    cbn [iam.actions iam.resources]. unfold certbot_scoped_actions.
    split; intros x Hx; cbn [In] in *; intuition (subst; auto 15).
  - eexists. split; [vm_compute; reflexivity | reflexivity].
Qed.

(** X17 at the sample request, for the run the scheduler starts. *)
Lemma bucket_wiring_witness :
  lookup "CERTBOT_BUCKET"
         (environment (certbot_run "CertScheduledRule" sample_instance
                         "www.example.cn,*.example.cn" "ops@example.cn"))
  = Some (bucketName "CertBucket").
Proof.
  refine (proj1 (proj2 (bucket_wiring sample_instance _ _ _ accepted_sample))
                created_event _ _).
  unfold runs. rewrite (on_schedule_whole _ _ _ _ accepted_sample eq_refl).
  apply in_or_app. right. left. reflexivity.
Defined.

Lemma find_api_cors :
  option_map (fun a => apigateway.defaultCorsPreflightOptions
                         (apigateway.props a))
             (find_api the_stack "SslCertManageAPI")
  = Some (Some {| apigateway.allowHeaders :=
                    ["Content-Type"; "X-Amz-Date"; "Authorization";
                     "X-Api-Key"];
                  apigateway.allowMethods := ["POST"; "OPTION"];
                  apigateway.allowCredentials := true;
                  apigateway.allowOrigins := apigateway.Cors.ALL_ORIGINS |}).
Proof. vm_compute. reflexivity. Qed.

Lemma api_method_names :
  map apigateway.httpMethod (api_methods the_stack "SslCertManageAPI")
  = ["OPTIONS"; "OPTIONS"; "OPTIONS"; "ANY"; "GET"; "OPTIONS"; "POST";
     "OPTIONS"; "GET"].
Proof. vm_compute. reflexivity. Qed.

Lemma api_routes :
  routes (api_methods the_stack "SslCertManageAPI")
  = [("ANY", ["api-explorer"; "{proxy+}"], "APIExplorerFunction");
     ("GET", ["api-explorer"], "APIExplorerFunction");
     ("POST", ["delete-ssl-cert"], "DeleteCertFunction");
     ("GET", ["list-ssl-cert"], "ListCertFunction")].
Proof. vm_compute. reflexivity. Qed.

(** X18: of the methods of the management API, the CORS preflight
    options allow [POST] only: [GET], the method of the route that lists
    the certificates, [ANY] and [OPTIONS] are not among the allowed
    methods. *)
Theorem cors_allows_post_only :
  exists a opts,
    find_api the_stack "SslCertManageAPI" = Some a
    /\ apigateway.defaultCorsPreflightOptions (apigateway.props a)
       = Some opts
    /\ (forall m, In m (api_methods the_stack "SslCertManageAPI") ->
                  (In (apigateway.httpMethod m) (apigateway.allowMethods opts)
                   <-> apigateway.httpMethod m = "POST"))
    /\ In ("GET", ["list-ssl-cert"], "ListCertFunction")
          (routes (api_methods the_stack "SslCertManageAPI"))
    /\ ~ In "GET" (apigateway.allowMethods opts).
Proof.
  pose proof find_api_cors as Hc.
  destruct (find_api the_stack "SslCertManageAPI") as [a|] eqn:Ha;
    [|discriminate Hc].
  cbn [option_map] in Hc. injection Hc as Hc.
  exists a. eexists. split; [reflexivity|]. split; [exact Hc|].
  cbn [apigateway.allowMethods]. split; [|split].
  - intros m Hm.
    apply (in_map apigateway.httpMethod) in Hm.
    rewrite api_method_names in Hm. cbn [In] in *.
    intuition (try congruence);
      match goal with
      | H : _ = apigateway.httpMethod m |- _ =>
          rewrite <- H in *; discriminate
      end.
  - rewrite api_routes. do 3 right. left. reflexivity.
  - cbn [In]. intuition discriminate.
Qed.

(* ===================================================================== *)
(** ** Further properties: the schedule *)
(* ===================================================================== *)

Lemma whole_number_spec (v : Q) (n : Z) :
  whole_number v = Some n <-> (v == inject_Z n)%Q.
Proof.
  unfold whole_number. cbv zeta.
  pose proof (Qred_correct v) as Hred.
  pose proof (gcd_Qred v) as Hgcd.
  destruct (Qred v) as [a b]. cbn [Qnum Qden] in *.
  split.
  - destruct (Pos.eqb_spec b 1) as [->|]; [|discriminate].
    intros [= <-]. symmetry. exact Hred.
  - intros H. rewrite H in Hred. unfold Qeq in Hred.
    cbn [Qnum Qden inject_Z] in Hred.
    assert (Hb : Z.pos b = 1%Z).
    { apply Z.divide_1_r_nonneg; [apply Pos2Z.is_nonneg|].
      rewrite <- Hgcd. apply Z.gcd_greatest.
      - exists n. lia.
      - apply Z.divide_refl. }
    injection Hb as ->. rewrite Pos.eqb_refl. f_equal. lia.
Qed.

Lemma schedulable_spec (v : Q) :
  schedulable v = true
  <-> exists n : Z, (2 <= n)%Z /\ (v == inject_Z n)%Q.
Proof.
  unfold schedulable. split.
  - destruct (whole_number v) as [n|] eqn:E; [|discriminate].
    intros H. apply Z.ltb_lt in H. exists n. split; [lia|].
    apply whole_number_spec. exact E.
  - intros (n & Hn & H). apply whole_number_spec in H. rewrite H.
    apply Z.ltb_lt. lia.
Qed.

(** X19: the scheduler starts a run of the issuing function exactly for
    the renew intervals that are a whole number of days from 2 on: then
    it starts one run per period, and the period is that number of days;
    for an interval of one day, or one that is not a whole number of
    days, the expression of the schedule is refused and the scheduler
    starts no run. *)
Theorem scheduled_runs_for_whole_days (i : Instance) (d e : string) (v : Q)
  (Hacc : accepted_parameters the_stack i = Some (configuration d e v)) :
  ((exists n : Z, (2 <= n)%Z /\ (v == inject_Z n)%Q) ->
   on_schedule the_stack i
   = [(Rate (DurationOps.days (Num v)), certbot_run "CertScheduledRule" i d e)]
   /\ period_seconds (Rate (DurationOps.days (Num v)))
      = Some (v * 86400)%Q)
  /\ (~ (exists n : Z, (2 <= n)%Z /\ (v == inject_Z n)%Q) ->
      on_schedule the_stack i = []
      /\ period_seconds (Rate (DurationOps.days (Num v))) = None).
Proof.
  rewrite (on_schedule_accepted i d e v Hacc), period_seconds_days.
  split; intros H.
  - apply schedulable_spec in H. rewrite H. split; reflexivity.
  - destruct (schedulable v) eqn:E; [|split; reflexivity].
    exfalso. apply H. apply schedulable_spec. exact E.
Qed.

(** X19 at the sample request: a run every 30 days. *)
Lemma scheduled_runs_for_whole_days_witness :
  on_schedule the_stack sample_instance
  = [(Rate (DurationOps.days (Num 30%Q)),
      certbot_run "CertScheduledRule" sample_instance
        "www.example.cn,*.example.cn" "ops@example.cn")]
  /\ period_seconds (Rate (DurationOps.days (Num 30%Q)))
     = Some (30 * 86400)%Q.
Proof.
  apply (proj1 (scheduled_runs_for_whole_days sample_instance _ _ _
                  accepted_sample)).
  exists 30%Z. split; [lia | reflexivity].
Defined.
